(** * ShapeShifter: canvas selection helper and timeline component

    A shallow embedding of [src/app/canvas/SelectionHelper.ts] (the
    [SelectionHelper] class) and of the [TimelineComponent] class that
    follows it in the same source file.

    Conventions of the embedding
    - path indices ([subIdx], [cmdIdx]) are JavaScript numbers that hold
      integers: they are modelled as [Z];
    - the other JavaScript numbers (distances, curve parameters, slider
      values, frame timestamps) are modelled as exact rationals [Q]:
      rounding of IEEE doubles, NaN and the infinities are not modelled;
    - [undefined] and [null] are modelled by [None];
    - reading a property of [undefined] raises a JavaScript [TypeError]:
      handlers run in a state-and-exception monad that keeps the state
      reached when the exception is raised;
    - the path library, the layer model, the store and the canvas directive
      are not part of the source file: they are parameters ([PathLib],
      [Canvas]). *)

From Stdlib Require Import List ZArith QArith Bool Lia Lqa.
Import ListNotations.

Set Implicit Arguments.

Module Selection.

(** ** Plain data read by the helper *)

(** [{ subIdx, cmdIdx }], the shape of end point hits, segment hits and of
    [currentDraggableSplitIndex]. *)
Record Index : Type := mkIndex { subIdx : Z; cmdIdx : Z }.

(** The result of [component.performHitTest]: only the fields the helper
    reads. A shape hit is read through its [subIdx] only. *)
Record HitResult : Type := mkHitResult {
  isHit : bool;
  isEndPointHit : bool;
  isSegmentHit : bool;
  isShapeHit : bool;
  endPointHits : list Index;
  segmentHits : list Index;
  shapeHits : list Z
}.

(** [ProjectionOntoPath]: [{ subIdx, cmdIdx, projection }]. *)
Record ProjectionOntoPath (Projection : Type) : Type := mkProjectionOntoPath {
  proj_subIdx : Z;
  proj_cmdIdx : Z;
  projection : Projection
}.

(** ** The collaborators that live outside the source file *)

(** The path geometry library ([../scripts/paths], [../scripts/common],
    [../scripts/layers]) and the store's vocabulary ([../store]). *)
Record PathLib : Type := mkPathLib {
  Point : Type;
  Transform : Type;
  VectorLayer : Type;
  LayerId : Type;
  Path : Type;
  SubPath : Type;
  Command : Type;
  PathMutator : Type;
  Projection : Type;
  ActionSource : Type;
  Selection : Type;
  (* MathUtil *)
  distance : Point -> Point -> Q;
  transformPoint : Point -> Transform -> Point;
  invert : Transform -> Transform;
  (* LayerUtil *)
  getFlattenedTransformForLayer : VectorLayer -> LayerId -> Transform;
  (* Path *)
  getSubPath : Path -> Z -> SubPath;
  getCommand : Path -> Z -> Z -> Command;
  project : Path -> Point -> option Z -> option (ProjectionOntoPath Projection);
  mutate : Path -> PathMutator;
  (* SubPath and Command *)
  isSplit : SubPath -> bool;
  isSplitPoint : Command -> bool;
  isSplitSegment : Command -> bool;
  (* Projection *)
  projection_t : Projection -> Q;
  (* PathMutator: each method updates the mutator and returns it *)
  splitCommand : PathMutator -> Z -> Z -> Q -> PathMutator;
  unsplitCommand : PathMutator -> Z -> Z -> PathMutator;
  build : PathMutator -> Path
}.

(** How a handler ends: it returns, or a [TypeError] is raised by reading a
    property of [undefined]. *)
Inductive Result (A : Type) : Type :=
| Ok (a : A)
| TypeError.
Arguments TypeError {A}.

Section Helper.

Context {L : PathLib}.

(** The active path layer: [id], [pathData] (assigned by [onMouseUp]),
    [isFilled()] and [isStroked()]. *)
Record PathLayer : Type := mkPathLayer {
  id : LayerId L;
  pathData : Path L;
  isFilled : bool;
  isStroked : bool
}.

(** The [CanvasOverlayDirective] as far as the helper reads it; [Hidden] is
    the rest of the directive. *)
Record Component (Hidden : Type) : Type := mkComponent {
  vectorLayer : VectorLayer L;
  activePathLayer : PathLayer;
  dragTriggerTouchSlop : Q;
  hidden : Hidden
}.

Inductive HoverType : Type := HoverPoint | HoverSegment | HoverSubPath.

(** The object handed to [hoverService.setHover]; a sub-path hover has no
    [cmdIdx]. *)
Record Hover : Type := mkHover {
  hover_type : HoverType;
  hover_source : ActionSource L;
  hover_subIdx : Z;
  hover_cmdIdx : option Z
}.

(** The store actions the helper constructs. *)
Inductive Action : Type :=
| TogglePointSelection (source : ActionSource L) (sub cmd : Z) (isShiftOrMetaPressed : bool)
| ToggleSegmentSelections (source : ActionSource L) (segments : list Index)
| ToggleSubPathSelection (source : ActionSource L) (sub : Z)
| SetSelections (selections : list (Selection L))
| UpdateActivePathBlock (source : ActionSource L) (path : Path L).

(** What a handler does to the outside: [store.dispatch],
    [hoverService.setHover] and [component.draw], in program order. *)
Inductive Effect : Type :=
| Dispatch (a : Action)
| SetHover (h : option Hover)
| Draw.

(** The directive's own behaviour: its hit test, its [activePath] getter,
    and how it reacts when the store, the hover service or [draw] is
    called (subscribers may replace the layers). *)
Record Canvas : Type := mkCanvas {
  Hidden : Type;
  performHitTest : Component Hidden -> Point L -> HitResult;
  activePath : Component Hidden -> Path L;
  react : Effect -> Component Hidden -> Component Hidden
}.

Context {K : Canvas}.

Local Abbreviation Comp := (Component (Hidden K)).

(** ** Hit disambiguation *)

(** lodash's [_.findLastIndex(array, predicate)]: scan from the last index
    down to 0, [-1] when no element satisfies the predicate. [n] is the
    number of elements still to visit. *)
Fixpoint findLastIndexFrom {A : Type} (array : list A) (predicate : A -> bool)
    (n : nat) : Z :=
  match n with
  | O => (-1)%Z
  | S k =>
      match nth_error array k with
      | Some x => if predicate x then Z.of_nat k
                  else findLastIndexFrom array predicate k
      | None => findLastIndexFrom array predicate k
      end
  end.

Definition findLastIndex {A : Type} (array : list A) (predicate : A -> bool) : Z :=
  findLastIndexFrom array predicate (length array).

(** [array[i]]: [undefined] outside of the array. *)
Definition arrayGet {A : Type} (array : list A) (i : Z) : option A :=
  if (i <? 0)%Z then None else nth_error array (Z.to_nat i).

Record SubPathInfo : Type := mkSubPathInfo {
  sp_subIdx : Z;
  sp_subPath : SubPath L
}.

Record CommandInfo : Type := mkCommandInfo {
  ci_subIdx : Z;
  ci_cmdIdx : Z;
  ci_cmd : Command L
}.

Definition subPathInfo (c : Comp) (sub : Z) : SubPathInfo :=
  mkSubPathInfo sub (getSubPath L (activePath K c) sub).

Definition commandInfo (c : Comp) (index : Index) : CommandInfo :=
  mkCommandInfo (subIdx index) (cmdIdx index)
    (getCommand L (activePath K c) (subIdx index) (cmdIdx index)).

Definition pickHit {A : Type} (infos : list A) (lastSplitIndex : Z) : option A :=
  arrayGet infos
    (if (lastSplitIndex <? 0)%Z then Z.of_nat (length infos) - 1
     else lastSplitIndex)%Z.

Definition findHitSubPath (c : Comp) (hits : list Z) : option SubPathInfo :=
  let infos := map (subPathInfo c) hits in
  let lastSplitIndex := findLastIndex infos (fun info => isSplit L (sp_subPath info)) in
  pickHit infos lastSplitIndex.

Definition findHitSegment (c : Comp) (hits : list Index) : option CommandInfo :=
  let infos := map (commandInfo c) hits in
  let lastSplitIndex := findLastIndex infos (fun info => isSplitSegment L (ci_cmd info)) in
  pickHit infos lastSplitIndex.

Definition findHitPoint (c : Comp) (hits : list Index) : option CommandInfo :=
  let infos := map (commandInfo c) hits in
  let lastSplitIndex := findLastIndex infos (fun info => isSplitPoint L (ci_cmd info)) in
  pickHit infos lastSplitIndex.

(** ** The helper's state and the handler monad *)

(** The private fields of [SelectionHelper]. [actionSource] is copied from
    the component by the constructor and never assigned again; the store is
    the [effects] log of [State]. *)
Record Helper : Type := mkHelper {
  actionSource : ActionSource L;
  currentDraggableSplitIndex : option Index;
  projectionOntoPath : option (ProjectionOntoPath (Projection L));
  isDragTriggered_ : bool;
  lastKnownMouseLocation : option (Point L);
  initialMouseDown : option (Point L)
}.

(** The helper after its constructor. *)
Definition newHelper (source : ActionSource L) : Helper :=
  mkHelper source None None false None None.

Record State : Type := mkState {
  helper : Helper;
  component : Comp;
  hover : option Hover;
  effects : list Effect
}.

Definition M (A : Type) : Type := State -> Result A * State.

Definition ret {A : Type} (a : A) : M A := fun s => (Ok a, s).

Definition bind {A B : Type} (m : M A) (k : A -> M B) : M B :=
  fun s => match m s with
           | (Ok a, s') => k a s'
           | (TypeError, s') => (TypeError, s')
           end.

Definition throw {A : Type} : M A := fun s => (TypeError, s).

Local Notation "x <- m ;; k" := (bind m (fun x => k))
  (at level 61, m at next level, right associativity).
Local Notation "m ;;; k" := (bind m (fun _ => k))
  (at level 61, right associativity).

(** Destructuring or dereferencing a value that may be [undefined]. *)
Definition deref {A : Type} (o : option A) : M A :=
  match o with
  | Some a => ret a
  | None => throw
  end.

Definition getHelper : M Helper := fun s => (Ok (helper s), s).

Definition getComponent : M Comp := fun s => (Ok (component s), s).

Definition modifyHelper (f : Helper -> Helper) : M unit :=
  fun s => (Ok tt, mkState (f (helper s)) (component s) (hover s) (effects s)).

Definition setComponent (c : Comp) : M unit :=
  fun s => (Ok tt, mkState (helper s) c (hover s) (effects s)).

(** A call that leaves the helper: it is logged and the directive reacts. *)
Definition emit (e : Effect) : M unit :=
  fun s => (Ok tt,
            mkState (helper s) (react K e (component s))
              (match e with SetHover h => h | _ => hover s end)
              (effects s ++ [e])).

Definition dispatch (a : Action) : M unit := emit (Dispatch a).
Definition setHover (h : option Hover) : M unit := emit (SetHover h).
Definition draw : M unit := emit Draw.

(** Field assignments. *)
Definition set_currentDraggableSplitIndex (v : option Index) (h : Helper) : Helper :=
  mkHelper (actionSource h) v (projectionOntoPath h) (isDragTriggered_ h)
    (lastKnownMouseLocation h) (initialMouseDown h).

Definition set_projectionOntoPath (v : option (ProjectionOntoPath (Projection L)))
    (h : Helper) : Helper :=
  mkHelper (actionSource h) (currentDraggableSplitIndex h) v (isDragTriggered_ h)
    (lastKnownMouseLocation h) (initialMouseDown h).

Definition set_isDragTriggered_ (v : bool) (h : Helper) : Helper :=
  mkHelper (actionSource h) (currentDraggableSplitIndex h) (projectionOntoPath h) v
    (lastKnownMouseLocation h) (initialMouseDown h).

Definition set_lastKnownMouseLocation (v : option (Point L)) (h : Helper) : Helper :=
  mkHelper (actionSource h) (currentDraggableSplitIndex h) (projectionOntoPath h)
    (isDragTriggered_ h) v (initialMouseDown h).

Definition set_initialMouseDown (v : option (Point L)) (h : Helper) : Helper :=
  mkHelper (actionSource h) (currentDraggableSplitIndex h) (projectionOntoPath h)
    (isDragTriggered_ h) (lastKnownMouseLocation h) v.

(** [activeLayer.pathData = path]. *)
Definition set_pathData (path : Path L) (c : Comp) : Comp :=
  mkComponent (vectorLayer c)
    (mkPathLayer (id (activePathLayer c)) path
       (isFilled (activePathLayer c)) (isStroked (activePathLayer c)))
    (dragTriggerTouchSlop c) (hidden c).

(** ** The helper's methods *)

Definition resetFields (h : Helper) : Helper :=
  mkHelper (actionSource h) None None false None None.

Definition reset : M unit := modifyHelper resetFields.

Definition isDragTriggered (s : State) : bool := isDragTriggered_ (helper s).

Definition getDraggableSplitIndex (s : State) : option Index :=
  currentDraggableSplitIndex (helper s).

Definition getProjectionOntoPath (s : State)
    : option (ProjectionOntoPath (Projection L)) :=
  projectionOntoPath (helper s).

Definition getLastKnownMouseLocation (s : State) : option (Point L) :=
  lastKnownMouseLocation (helper s).

(** The projection [calculateProjectionOntoPath] computes, as a function of
    the directive it reads. *)
Definition projectOnto (c : Comp) (mousePoint : Point L) (restrictToSubIdx : option Z)
    : option (ProjectionOntoPath (Projection L)) :=
  let transform :=
    getFlattenedTransformForLayer L (vectorLayer c) (id (activePathLayer c)) in
  let transformedMousePoint := transformPoint L mousePoint (invert L transform) in
  match project L (activePath K c) transformedMousePoint restrictToSubIdx with
  | None => None
  | Some projInfo =>
      Some (mkProjectionOntoPath (proj_subIdx projInfo) (proj_cmdIdx projInfo)
              (projection projInfo))
  end.

Definition calculateProjectionOntoPath (mousePoint : Point L)
    (restrictToSubIdx : option Z) : M (option (ProjectionOntoPath (Projection L))) :=
  c <- getComponent ;;
  ret (projectOnto c mousePoint restrictToSubIdx).

Definition checkForHovers (mousePoint : Point L) : M unit :=
  h <- getHelper ;;
  match currentDraggableSplitIndex h with
  | Some _ => ret tt
  | None =>
      c <- getComponent ;;
      let hitResult := performHitTest K c mousePoint in
      if negb (isHit hitResult) then setHover None
      else if isEndPointHit hitResult then
        info <- deref (findHitPoint c (endPointHits hitResult)) ;;
        setHover (Some (mkHover HoverPoint (actionSource h)
                          (ci_subIdx info) (Some (ci_cmdIdx info))))
      else
        let shapeHover :=
          if isShapeHit hitResult && isFilled (activePathLayer c) then
            info <- deref (findHitSubPath c (shapeHits hitResult)) ;;
            setHover (Some (mkHover HoverSubPath (actionSource h) (sp_subIdx info) None))
          else ret tt in
        if isSegmentHit hitResult then
          if isFilled (activePathLayer c) then
            info <- deref (findHitSegment c (segmentHits hitResult)) ;;
            if isSplitSegment L
                 (getCommand L (activePath K c) (ci_subIdx info) (ci_cmdIdx info))
            then setHover (Some (mkHover HoverSegment (actionSource h)
                                   (ci_subIdx info) (Some (ci_cmdIdx info))))
            else shapeHover
          else if isStroked (activePathLayer c) then
            info <- deref (findHitSegment c (segmentHits hitResult)) ;;
            setHover (Some (mkHover HoverSubPath (actionSource h) (ci_subIdx info) None))
          else shapeHover
        else shapeHover
  end.

(** The sub-path selection shared by [onMouseDown] and [onMouseUp]:
    [hits] is [shapeHits] when the shape is hit, [segmentHits] otherwise
    (a segment hit is read through its [subIdx]). *)
Definition subPathHits (hitResult : HitResult) : list Z :=
  if isShapeHit hitResult then shapeHits hitResult
  else map subIdx (segmentHits hitResult).

Definition onMouseDown (mouseDown : Point L) (isShiftOrMetaPressed : bool) : M unit :=
  modifyHelper (set_initialMouseDown (Some mouseDown)) ;;;
  modifyHelper (set_lastKnownMouseLocation (Some mouseDown)) ;;;
  h <- getHelper ;;
  c <- getComponent ;;
  let hitResult := performHitTest K c mouseDown in
  if isEndPointHit hitResult then
    info <- deref (findHitPoint c (endPointHits hitResult)) ;;
    if isSplitPoint L (ci_cmd info) then
      modifyHelper (set_currentDraggableSplitIndex
                      (Some (mkIndex (ci_subIdx info) (ci_cmdIdx info))))
    else
      dispatch (TogglePointSelection (actionSource h) (ci_subIdx info) (ci_cmdIdx info)
                  isShiftOrMetaPressed)
  else
    let selectSubPath :=
      if isSegmentHit hitResult || isShapeHit hitResult then
        info <- deref (findHitSubPath c (subPathHits hitResult)) ;;
        dispatch (ToggleSubPathSelection (actionSource h) (sp_subIdx info))
      else if negb isShiftOrMetaPressed then
        dispatch (SetSelections [])
      else ret tt in
    if isFilled (activePathLayer c) && isSegmentHit hitResult then
      info <- deref (findHitSegment c (segmentHits hitResult)) ;;
      if isSplitSegment L (ci_cmd info) then
        dispatch (ToggleSegmentSelections (actionSource h)
                    [mkIndex (ci_subIdx info) (ci_cmdIdx info)])
      else selectSubPath
    else selectSubPath.

(** [a < b] on numbers. *)
Definition numLt (a b : Q) : bool := negb (Qle_bool b a).

Definition onMouseMove (mouseMove : Point L) : M unit :=
  modifyHelper (set_lastKnownMouseLocation (Some mouseMove)) ;;;
  h <- getHelper ;;
  c <- getComponent ;;
  match currentDraggableSplitIndex h with
  | Some _ =>
      (* [MathUtil.distance] reads the coordinates of its two arguments *)
      down <- deref (initialMouseDown h) ;;
      let distance := distance L down mouseMove in
      if numLt (dragTriggerTouchSlop c) distance then
        modifyHelper (set_isDragTriggered_ true)
      else ret tt
  | None => ret tt
  end ;;;
  h <- getHelper ;;
  (if isDragTriggered_ h then
     index <- deref (currentDraggableSplitIndex h) ;;
     p <- calculateProjectionOntoPath mouseMove (Some (subIdx index)) ;;
     modifyHelper (set_projectionOntoPath p)
   else checkForHovers mouseMove) ;;;
  draw.

Definition onMouseUp (mouseUp : Point L) (isShiftOrMetaPressed : bool) : M unit :=
  modifyHelper (set_lastKnownMouseLocation (Some mouseUp)) ;;;
  h <- getHelper ;;
  (if isDragTriggered_ h then
     projOntoPath <- deref (projectionOntoPath h) ;;
     let newSubIdx := proj_subIdx projOntoPath in
     let newCmdIdx := proj_cmdIdx projOntoPath in
     old <- deref (currentDraggableSplitIndex h) ;;
     let oldSubIdx := subIdx old in
     let oldCmdIdx := cmdIdx old in
     if (newSubIdx =? oldSubIdx)%Z then
       c <- getComponent ;;
       let startingPath := pathData (activePathLayer c) in
       let pathMutator := mutate L startingPath in
       pathMutator <-
         (if (newCmdIdx >? oldCmdIdx)%Z then
            let pathMutator :=
              splitCommand L pathMutator newSubIdx newCmdIdx
                (projection_t L (projection projOntoPath)) in
            ret (unsplitCommand L pathMutator oldSubIdx oldCmdIdx)
          else if (newCmdIdx <? oldCmdIdx)%Z then
            let pathMutator := unsplitCommand L pathMutator oldSubIdx oldCmdIdx in
            ret (splitCommand L pathMutator newSubIdx newCmdIdx
                   (projection_t L (projection projOntoPath)))
          else
            let pathMutator := unsplitCommand L pathMutator oldSubIdx oldCmdIdx in
            setComponent (set_pathData (build L pathMutator) c) ;;;
            temp <- calculateProjectionOntoPath mouseUp None ;;
            tempProjOntoPath <- deref temp ;;
            if (oldSubIdx =? proj_subIdx tempProjOntoPath)%Z then
              ret (splitCommand L pathMutator
                     (proj_subIdx tempProjOntoPath) (proj_cmdIdx tempProjOntoPath)
                     (projection_t L (projection tempProjOntoPath)))
            else
              ret (mutate L startingPath)) ;;
       setHover None ;;;
       dispatch (SetSelections []) ;;;
       reset ;;;
       dispatch (UpdateActivePathBlock (actionSource h) (build L pathMutator))
     else ret tt
   else
     match currentDraggableSplitIndex h with
     | Some _ =>
         c <- getComponent ;;
         let hitResult := performHitTest K c mouseUp in
         if negb (isHit hitResult) then
           dispatch (SetSelections [])
         else if isEndPointHit hitResult then
           info <- deref (findHitPoint c (endPointHits hitResult)) ;;
           dispatch (TogglePointSelection (actionSource h) (ci_subIdx info)
                       (ci_cmdIdx info) isShiftOrMetaPressed)
         else if isSegmentHit hitResult || isShapeHit hitResult then
           info <- deref (findHitSubPath c (subPathHits hitResult)) ;;
           dispatch (ToggleSubPathSelection (actionSource h) (sp_subIdx info))
         else ret tt
     | None => ret tt
     end) ;;;
  reset ;;;
  checkForHovers mouseUp ;;;
  draw.

Definition onMouseLeave (mouseLeave : Point L) : M unit :=
  modifyHelper (set_lastKnownMouseLocation (Some mouseLeave)) ;;;
  reset ;;;
  setHover None ;;;
  draw.

(** The four mouse events the directive forwards to the helper. *)
Inductive MouseEvent : Type :=
| MouseDown (p : Point L) (isShiftOrMetaPressed : bool)
| MouseMove (p : Point L)
| MouseUp (p : Point L) (isShiftOrMetaPressed : bool)
| MouseLeave (p : Point L).

Definition handle (ev : MouseEvent) : M unit :=
  match ev with
  | MouseDown p b => onMouseDown p b
  | MouseMove p => onMouseMove p
  | MouseUp p b => onMouseUp p b
  | MouseLeave p => onMouseLeave p
  end.

(** ** Vocabulary of the properties *)

(** [x] is the last element of [l] that satisfies [splitp], or the last
    element of [l] when no element satisfies it. *)
Definition LastSplitOrLast {A : Type} (splitp : A -> bool) (l : list A) (x : A) : Prop :=
  (exists before after,
      l = before ++ x :: after /\ splitp x = true /\
      forall y, In y after -> splitp y = false)
  \/ ((forall y, In y l -> splitp y = false) /\ exists before, l = before ++ [x]).

(** The split predicates of the three searches, on the hits themselves. *)
Definition hitIsSplitPoint (c : Comp) (hit : Index) : bool :=
  isSplitPoint L (getCommand L (activePath K c) (subIdx hit) (cmdIdx hit)).

Definition hitIsSplitSegment (c : Comp) (hit : Index) : bool :=
  isSplitSegment L (getCommand L (activePath K c) (subIdx hit) (cmdIdx hit)).

Definition hitIsSplitSubPath (c : Comp) (sub : Z) : bool :=
  isSplit L (getSubPath L (activePath K c) sub).

(** The store actions among a list of effects, in order. *)
Fixpoint dispatched (es : list Effect) : list Action :=
  match es with
  | [] => []
  | Dispatch a :: rest => a :: dispatched rest
  | _ :: rest => dispatched rest
  end.

(** The hover updates among a list of effects, in order. *)
Fixpoint hoverUpdates (es : list Effect) : list (option Hover) :=
  match es with
  | [] => []
  | SetHover h :: rest => h :: hoverUpdates rest
  | _ :: rest => hoverUpdates rest
  end.

(** The directive after [activeLayer.pathData] has been assigned the path
    with the dragged split point unsplit. *)
Definition unsplitLayer (c : Comp) (old : Index) : Comp :=
  set_pathData
    (build L (unsplitCommand L (mutate L (pathData (activePathLayer c)))
                (subIdx old) (cmdIdx old)))
    c.

(** The states the helper can be in: it starts as constructed, handles
    mouse events (an event whose handler raises leaves the state it had
    reached), and between two events the rest of the application may change
    the directive and the hover. *)
Inductive reachable : State -> Prop :=
| reachable_new (source : ActionSource L) (c : Comp) (hov : option Hover) :
    reachable (mkState (newHelper source) c hov [])
| reachable_event (ev : MouseEvent) (s : State) :
    reachable s -> reachable (snd (handle ev s))
| reachable_outside (s : State) (c : Comp) (hov : option Hover) :
    reachable s -> reachable (mkState (helper s) c hov (effects s)).

(** What two directives have to agree on for the helper not to tell them
    apart: every query the helper makes gives the same result on both, now
    and after the directive has reacted to the same effect or has had the
    same [pathData] assigned. *)
Record SameQueries (R : Comp -> Comp -> Prop) : Prop := mkSameQueries {
  same_hitTest : forall c1 c2 p, R c1 c2 ->
    performHitTest K c1 p = performHitTest K c2 p;
  same_getCommand : forall c1 c2 sub cmd, R c1 c2 ->
    getCommand L (activePath K c1) sub cmd = getCommand L (activePath K c2) sub cmd;
  same_getSubPath : forall c1 c2 sub, R c1 c2 ->
    getSubPath L (activePath K c1) sub = getSubPath L (activePath K c2) sub;
  same_project : forall c1 c2 p restrict, R c1 c2 ->
    projectOnto c1 p restrict = projectOnto c2 p restrict;
  same_pathData : forall c1 c2, R c1 c2 ->
    pathData (activePathLayer c1) = pathData (activePathLayer c2);
  same_isFilled : forall c1 c2, R c1 c2 ->
    isFilled (activePathLayer c1) = isFilled (activePathLayer c2);
  same_isStroked : forall c1 c2, R c1 c2 ->
    isStroked (activePathLayer c1) = isStroked (activePathLayer c2);
  same_slop : forall c1 c2, R c1 c2 ->
    dragTriggerTouchSlop c1 = dragTriggerTouchSlop c2;
  same_react : forall c1 c2 e, R c1 c2 -> R (react K e c1) (react K e c2);
  same_assign : forall c1 c2 path, R c1 c2 ->
    R (set_pathData path c1) (set_pathData path c2)
}.

(** The mutations [onMouseUp] applies when the split point is dropped on
    another command of its sub-path: the split at the new index first when
    the new index is the larger one, the unsplit at the old index first
    when it is the smaller one. *)
Definition movedSplit (startingPath : Path L) (old : Index)
    (projOntoPath : ProjectionOntoPath (Projection L)) : Path L :=
  let new_t := projection_t L (projection projOntoPath) in
  if (proj_cmdIdx projOntoPath >? cmdIdx old)%Z then
    build L
      (unsplitCommand L
         (splitCommand L (mutate L startingPath)
            (proj_subIdx projOntoPath) (proj_cmdIdx projOntoPath) new_t)
         (subIdx old) (cmdIdx old))
  else
    build L
      (splitCommand L
         (unsplitCommand L (mutate L startingPath) (subIdx old) (cmdIdx old))
         (proj_subIdx projOntoPath) (proj_cmdIdx projOntoPath) new_t).


(** The four accessors after [reset]. *)
Definition gestureCleared (s : State) : Prop :=
  isDragTriggered s = false /\
  getDraggableSplitIndex s = None /\
  getProjectionOntoPath s = None /\
  getLastKnownMouseLocation s = None.


(** The link between the drag flag, the drag target and the point of the
    mouse down: a triggered drag has its split point, and a pending split
    point has its mouse down location. *)
Definition dragHasTarget (h : Helper) : Prop :=
  (isDragTriggered_ h = true -> currentDraggableSplitIndex h <> None) /\
  (currentDraggableSplitIndex h <> None -> initialMouseDown h <> None).

(** [m] keeps a property of the helper's fields, whether it returns or
    raises. *)
Definition keeps {A : Type} (P : Helper -> Prop) (m : M A) : Prop :=
  forall s, P (helper s) -> P (helper (snd (m s))).


(** Two runs side by side. [agree R log1 log2 s1 s2]: the helpers have the
    same fields, the directives are related by [R], and since the runs
    started (with [log1] and [log2] already in the logs) the same effects
    have been produced in the same order. *)
Definition agree (R : Comp -> Comp -> Prop) (log1 log2 : list Effect)
    (s1 s2 : State) : Prop :=
  helper s1 = helper s2 /\
  R (component s1) (component s2) /\
  exists es, effects s1 = log1 ++ es /\ effects s2 = log2 ++ es.

Definition sameOutcome {A : Type} (RA : A -> A -> Prop) (r1 r2 : Result A) : Prop :=
  match r1, r2 with
  | Ok a1, Ok a2 => RA a1 a2
  | TypeError, TypeError => True
  | _, _ => False
  end.

(** [m1] and [m2] run from agreeing states end alike (both return, with
    results related by [RA], or both raise) in agreeing states. *)
Definition sim {A : Type} (R : Comp -> Comp -> Prop) (log1 log2 : list Effect)
    (RA : A -> A -> Prop) (m1 m2 : M A) : Prop :=
  forall s1 s2, agree R log1 log2 s1 s2 ->
    sameOutcome RA (fst (m1 s1)) (fst (m2 s2)) /\
    agree R log1 log2 (snd (m1 s1)) (snd (m2 s2)).


(** A hit result whose raised flags come with hits: the lists behind
    [isEndPointHit], [isSegmentHit] and [isShapeHit] are not empty. *)
Definition flagsHaveHits (hitResult : HitResult) : Prop :=
  (isEndPointHit hitResult = true -> endPointHits hitResult <> []) /\
  (isSegmentHit hitResult = true -> segmentHits hitResult <> []) /\
  (isShapeHit hitResult = true -> shapeHits hitResult <> []).

(** No store action among a list of effects is an [UpdateActivePathBlock]. *)
Definition isPathUpdate (e : Effect) : bool :=
  match e with
  | Dispatch (UpdateActivePathBlock _ _) => true
  | _ => false
  end.




End Helper.

Notation "x <- m ;; k" := (bind m (fun x => k))
  (at level 61, m at next level, right associativity).
Notation "m ;;; k" := (bind m (fun _ => k))
  (at level 61, right associativity).

End Selection.

Module Timeline.

(** ** [TimelineComponent] *)

Definition maxAnimationFractionSliderValue : Q := 1000.
Definition animationDuration : Q := 1000.

(** What the component's two [EventEmitter]s send out. *)
Inductive Emission : Type :=
| labelPointsChangedEmitter (shouldLabelPoints : bool)
| animationFractionChangedEmitter (fraction : Q).

Definition onAnimationFractionSliderChanged (sliderValue : Q) : list Emission :=
  [animationFractionChangedEmitter (sliderValue / maxAnimationFractionSliderValue)].

Definition onLabelPointsCheckboxChanged (shouldLabelPoints : bool) : list Emission :=
  [labelPointsChangedEmitter shouldLabelPoints].

(** [!startTimestamp]: [null] is falsy, and so is the number [0]. *)
Definition isFalsy (startTimestamp : option Q) : bool :=
  match startTimestamp with
  | None => true
  | Some n => Qeq_bool n 0
  end.

(** The state of one [onPlayClick]: the closure variable [startTimestamp],
    whether a frame callback is registered with [requestAnimationFrame], and
    the fractions emitted so far. *)
Record Play : Type := mkPlay {
  startTimestamp : option Q;
  frameRequested : bool;
  emitted : list Q
}.

(** [onPlayClick] itself: the variable is [null] and the first frame is
    requested. *)
Definition onPlayClick : Play := mkPlay None true [].

(** The closure [onAnimationFrame]. *)
Definition onAnimationFrame (timestamp : Q) (p : Play) : Play :=
  let start :=
    if isFalsy (startTimestamp p) then timestamp
    else match startTimestamp p with Some n => n | None => timestamp end in
  let progress := timestamp - start in
  if negb (Qle_bool animationDuration progress) then
    mkPlay (Some start) true (emitted p ++ [progress / animationDuration])
  else
    mkPlay None false (emitted p ++ [1]).

(** The platform calls the registered callback with the next frame's
    timestamp; a frame with no callback registered runs nothing. *)
Definition frame (p : Play) (timestamp : Q) : Play :=
  if frameRequested p then onAnimationFrame timestamp p else p.

Definition play (timestamps : list Q) : Play :=
  fold_left frame timestamps onPlayClick.

(** The play loop in the words of its description: with [first] the
    timestamp of the first frame, a frame whose elapsed time is below the
    duration emits [elapsed / 1000] and the loop goes on; the first frame
    whose elapsed time reaches the duration emits [1] and ends the loop. *)
Fixpoint describedFractions (first : Q) (timestamps : list Q) : list Q * bool :=
  match timestamps with
  | [] => ([], true)
  | timestamp :: rest =>
      let elapsed := timestamp - first in
      if negb (Qle_bool 1000 elapsed) then
        let (fractions, goesOn) := describedFractions first rest in
        (elapsed / 1000 :: fractions, goesOn)
      else ([1], false)
  end.

Definition describedPlay (timestamps : list Q) : list Q * bool :=
  match timestamps with
  | [] => ([], true)
  | first :: _ => describedFractions first timestamps
  end.

(** What holds of a play after any frames: the fractions emitted so far
    are below 1, but for a last fraction 1 that is there exactly when no
    frame is requested any more; the start timestamp is unset once the
    loop has ended. *)
Definition playShape (p : Play) : Prop :=
  exists running,
    emitted p = running ++ (if frameRequested p then [] else [1])
    /\ Forall (fun fraction => fraction < 1) running
    /\ (frameRequested p = false -> startTimestamp p = None).

End Timeline.

(** ** A small instance of the collaborators

    Points are integers on a line, a path is the list of its split points,
    and a mutator is the path under construction. It is used to run the
    handlers on concrete gestures. *)
Module Toy.

Import Selection.

Definition sameIndex (sub cmd : Z) (i : Index) : bool :=
  ((subIdx i =? sub) && (cmdIdx i =? cmd))%Z.

Definition toyProject (path : list Index) (p : Z) (restrict : option Z)
    : option (ProjectionOntoPath Q) :=
  if (p <? 0)%Z then None
  else Some (mkProjectionOntoPath
               (match restrict with Some sub => sub | None => p / 100 end)%Z
               (p mod 100)%Z (inject_Z p)).

Definition lib : PathLib :=
  {| Point := Z;
     Transform := unit;
     VectorLayer := unit;
     LayerId := unit;
     Path := list Index;
     SubPath := bool;
     Command := bool;
     PathMutator := list Index;
     Projection := Q;
     ActionSource := unit;
     Selection := unit;
     distance := fun p q => inject_Z (Z.abs (p - q));
     transformPoint := fun p _ => p;
     invert := fun tr => tr;
     getFlattenedTransformForLayer := fun _ _ => tt;
     getSubPath := fun path sub => existsb (fun i => (subIdx i =? sub)%Z) path;
     getCommand := fun path sub cmd => existsb (sameIndex sub cmd) path;
     project := toyProject;
     mutate := fun path => path;
     isSplit := fun b => b;
     isSplitPoint := fun b => b;
     isSplitSegment := fun b => b;
     projection_t := fun q => q;
     splitCommand := fun m sub cmd _ => mkIndex sub cmd :: m;
     unsplitCommand := fun m sub cmd => filter (fun i => negb (sameIndex sub cmd i)) m;
     build := fun m => m |}.

(** Negative points hit nothing, points below 100 hit the end point
    [(0, p)], and the others hit the shape of sub-path [p / 100]. *)
Definition toyHitTest (p : Z) : HitResult :=
  if (p <? 0)%Z then mkHitResult false false false false [] [] []
  else if (p <? 100)%Z then mkHitResult true true false false [mkIndex 0 p] [] []
  else mkHitResult true false false true [] [] [(p / 100)%Z].

(** The hidden part of the directive counts the calls it has reacted to. *)
Definition canvas : @Canvas lib :=
  @mkCanvas lib nat
    (fun _ (p : Z) => toyHitTest p)
    (fun c => pathData (activePathLayer c))
    (fun _ c => mkComponent (L := lib) (vectorLayer c) (activePathLayer c)
                  (dragTriggerTouchSlop c) (S (hidden c))).

Definition toyComponentAt (calls : nat) (path : list Index)
    : Component (L := lib) nat :=
  mkComponent (L := lib) tt (mkPathLayer (L := lib) tt path true false) 4 calls.

Definition toyComponent (path : list Index) : Component (L := lib) nat :=
  toyComponentAt 0 path.

(** Two directives of the small instance that differ in their hidden part
    only. *)
Definition sameVisible (c1 c2 : Component (L := lib) nat) : Prop :=
  vectorLayer c1 = vectorLayer c2 /\
  activePathLayer c1 = activePathLayer c2 /\
  dragTriggerTouchSlop c1 = dragTriggerTouchSlop c2.

(** The helper in the middle of a drag of the split point [(0, 3)], the
    mouse projected onto command [cmd] of sub-path [sub]. *)
Definition dragging (sub cmd : Z) : Helper (L := lib) :=
  mkHelper (L := lib) tt (Some (mkIndex 0 3))
    (Some (mkProjectionOntoPath sub cmd (1 # 2))) true (Some 40%Z) (Some 3%Z).

Definition toyState (h : Helper (L := lib)) (path : list Index) : State (K := canvas) :=
  mkState (K := canvas) h (toyComponent path) None [].

(** A second directive for the small instance, with segments: points from
    200 to 299 hit the segment [(0, p - 200)], and points from 300 on hit
    both the segment [(0, p - 300)] and the shape of sub-path 3. *)
Definition toyHitTest2 (p : Z) : HitResult :=
  if (p <? 0)%Z then mkHitResult false false false false [] [] []
  else if (p <? 100)%Z then mkHitResult true true false false [mkIndex 0 p] [] []
  else if (p <? 200)%Z then mkHitResult true false false true [] [] [(p / 100)%Z]
  else if (p <? 300)%Z then
    mkHitResult true false true false [] [mkIndex 0 (p - 200)] []
  else mkHitResult true false true true [] [mkIndex 0 (p - 300)] [3%Z].

Definition canvas2 : @Canvas lib :=
  @mkCanvas lib nat
    (fun _ (p : Z) => toyHitTest2 p)
    (fun c => pathData (activePathLayer c))
    (fun _ c => mkComponent (L := lib) (vectorLayer c) (activePathLayer c)
                  (dragTriggerTouchSlop c) (S (hidden c))).

(** A directive whose layer is filled or stroked as asked. *)
Definition toyComponentWith (filled stroked : bool) (path : list Index)
    : Component (L := lib) nat :=
  mkComponent (L := lib) tt (mkPathLayer (L := lib) tt path filled stroked) 4 0%nat.

Definition toyState2 (h : Helper (L := lib)) (filled stroked : bool)
    (path : list Index) : State (K := canvas2) :=
  mkState (K := canvas2) h (toyComponentWith filled stroked path) None [].

(** The helper with the split point [(0, 3)] pending after a mouse down at
    3, no drag triggered. *)
Definition pending : Helper (L := lib) :=
  mkHelper (L := lib) tt (Some (mkIndex 0 3)) None false (Some 3%Z) (Some 3%Z).


End Toy.

(** * Properties of the selection helper *)
Module SelectionFacts.

Import Selection.

Unset Implicit Arguments.

Section Disambiguation.

Context {L : PathLib} {K : @Canvas L}.

Local Abbreviation Comp := (Component (L := L) (Hidden K)).

Variable A : Type.
Variable splitp : A -> bool.

(** What the downward scan of [findLastIndexFrom] returns. *)
Lemma findLastIndexFrom_spec (l : list A) (n : nat) :
  (n <= length l)%nat ->
  (findLastIndexFrom l splitp n = (-1)%Z /\
   forall k x, (k < n)%nat -> nth_error l k = Some x -> splitp x = false)
  \/ exists k x,
       findLastIndexFrom l splitp n = Z.of_nat k /\ (k < n)%nat /\
       nth_error l k = Some x /\ splitp x = true /\
       forall j y, (k < j < n)%nat -> nth_error l j = Some y -> splitp y = false.
Proof.
  induction n as [|n IH]; intros Hn; simpl.
  - left. split; [reflexivity | intros; lia].
  - destruct (nth_error l n) as [x|] eqn:Hx.
    + destruct (splitp x) eqn:Hp.
      * right. exists n, x. repeat split; auto. intros; lia.
      * destruct IH as [[E Hall] | (k & y & E & Hk & Hy & Hpy & Hafter)]; [lia | |].
        -- left. split; [exact E|]. intros k z Hk Hz.
           destruct (Nat.eq_dec k n) as [->|]; [congruence | apply (Hall k); auto; lia].
        -- right. exists k, y. repeat split; auto.
           intros j z Hj Hz.
           destruct (Nat.eq_dec j n) as [->|]; [congruence | apply (Hafter j); auto; lia].
    + apply nth_error_None in Hx. lia.
Qed.

Lemma nth_error_last (l : list A) (x : A) :
  nth_error (l ++ [x]) (length l) = Some x.
Proof. rewrite nth_error_app2, Nat.sub_diag by lia. reflexivity. Qed.

(** [infos[lastSplitIndex < 0 ? infos.length - 1 : lastSplitIndex]] on a
    non-empty array. *)
Lemma pickHit_spec (l : list A) :
  l <> [] ->
  exists x, pickHit l (findLastIndex l splitp) = Some x /\ LastSplitOrLast splitp l x.
Proof.
  intros Hne. unfold pickHit, findLastIndex, arrayGet.
  destruct (findLastIndexFrom_spec l (length l) (le_n _))
    as [[E Hall] | (k & x & E & Hk & Hx & Hpx & Hafter)]; rewrite E.
  - destruct (exists_last Hne) as (before & x & ->).
    exists x. rewrite length_app. simpl.
    replace (Z.of_nat (length before + 1) - 1)%Z with (Z.of_nat (length before)) by lia.
    destruct (Z.ltb_spec (Z.of_nat (length before)) 0); [lia|].
    rewrite Nat2Z.id, nth_error_last. split; [reflexivity|].
    right. split; [| exists before; reflexivity].
    intros y Hy. apply In_nth_error in Hy. destruct Hy as [j Hj].
    apply (Hall j y); auto. apply nth_error_Some. congruence.
  - exists x. destruct (Z.ltb_spec (Z.of_nat k) 0); [lia|]. simpl.
    destruct (Z.ltb_spec (Z.of_nat k) 0); [lia|].
    rewrite Nat2Z.id. split; [exact Hx|].
    left. destruct (nth_error_split l k Hx) as (before & after & -> & Hlen).
    exists before, after. repeat split; auto.
    intros y Hy. apply In_nth_error in Hy. destruct Hy as [j Hj].
    apply (Hafter (length before + 1 + j)%nat y).
    + split; [lia|]. rewrite length_app. simpl.
      assert (j < length after)%nat by (apply nth_error_Some; congruence). lia.
    + rewrite nth_error_app2 by lia.
      replace (length before + 1 + j - length before)%nat with (S j) by lia.
      exact Hj.
Qed.

(** The search can be read on the hits, before they are paired with their
    command or sub-path. *)
Lemma LastSplitOrLast_map (B : Type) (f : B -> A) (l : list B) (x : A) :
  LastSplitOrLast splitp (map f l) x ->
  exists y, x = f y /\ LastSplitOrLast (fun b => splitp (f b)) l y.
Proof.
  intros [(before & after & E & Hx & Hafter) | (Hall & before & E)].
  - apply map_eq_app in E. destruct E as (l1 & l2 & -> & <- & E2).
    apply map_eq_cons in E2. destruct E2 as (y & l3 & -> & <- & <-).
    exists y. split; [reflexivity|]. left. exists l1, l3. repeat split; auto.
    intros b Hb. apply Hafter. apply in_map. exact Hb.
  - apply map_eq_app in E. destruct E as (l1 & l2 & -> & <- & E2).
    apply map_eq_cons in E2. destruct E2 as (y & l3 & -> & <- & E3).
    apply map_eq_nil in E3. subst l3.
    exists y. split; [reflexivity|]. right. split; [| exists l1; reflexivity].
    intros b Hb. apply Hall. apply in_map. exact Hb.
Qed.

Lemma pickHit_map_spec (B : Type) (f : B -> A) (hits : list B) :
  hits <> [] ->
  exists hit,
    LastSplitOrLast (fun b => splitp (f b)) hits hit /\
    pickHit (map f hits) (findLastIndex (map f hits) splitp) = Some (f hit).
Proof.
  intros Hne.
  destruct (pickHit_spec (map f hits)) as (x & Hpick & Hlast).
  - intros E. apply map_eq_nil in E. contradiction.
  - apply LastSplitOrLast_map in Hlast. destruct Hlast as (y & -> & Hy).
    exists y. split; assumption.
Qed.

End Disambiguation.

Section Handlers.

Context {L : PathLib} {K : @Canvas L}.

Local Abbreviation Comp := (Component (L := L) (Hidden K)).

Arguments checkForHovers : simpl never.
Arguments projectOnto : simpl never.

(** C3. Hit disambiguation: on a non-empty list of hits, [findHitPoint],
    [findHitSegment] and [findHitSubPath] return the last hit whose command
    (for [findHitSubPath], whose sub-path) is a split point, a split segment
    or a split sub-path, and the last hit of the list when no hit is split.
    What is returned is that hit's own [subIdx] (and [cmdIdx]) together
    with the command or sub-path of the active path at these indices. *)
Theorem C3_hit_disambiguation (c : Comp) :
  (forall hits : list Index, hits <> [] ->
     exists hit,
       LastSplitOrLast
         (fun hit => isSplitPoint L
                       (getCommand L (activePath K c) (subIdx hit) (cmdIdx hit)))
         hits hit
       /\ findHitPoint c hits
          = Some (mkCommandInfo (subIdx hit) (cmdIdx hit)
                    (getCommand L (activePath K c) (subIdx hit) (cmdIdx hit))))
  /\ (forall hits : list Index, hits <> [] ->
        exists hit,
          LastSplitOrLast
            (fun hit => isSplitSegment L
                          (getCommand L (activePath K c) (subIdx hit) (cmdIdx hit)))
            hits hit
          /\ findHitSegment c hits
             = Some (mkCommandInfo (subIdx hit) (cmdIdx hit)
                       (getCommand L (activePath K c) (subIdx hit) (cmdIdx hit))))
  /\ (forall hits : list Z, hits <> [] ->
        exists sub,
          LastSplitOrLast
            (fun sub => isSplit L (getSubPath L (activePath K c) sub)) hits sub
          /\ findHitSubPath c hits
             = Some (mkSubPathInfo sub (getSubPath L (activePath K c) sub))).
Proof.
  repeat split; intros hits Hne.
  - exact (pickHit_map_spec _ (fun info => isSplitPoint L (ci_cmd info))
             _ (commandInfo c) _ Hne).
  - exact (pickHit_map_spec _ (fun info => isSplitSegment L (ci_cmd info))
             _ (commandInfo c) _ Hne).
  - exact (pickHit_map_spec _ (fun info => isSplit L (sp_subPath info))
             _ (subPathInfo c) _ Hne).
Qed.

(** Unfolding of the monad's operations, to run a handler symbolically. *)
Ltac run_handler :=
  cbv [onMouseDown onMouseMove onMouseUp onMouseLeave
       calculateProjectionOntoPath reset bind ret throw deref getHelper
       getComponent modifyHelper setComponent dispatch setHover draw emit];
  cbn [helper component hover effects fst snd
       actionSource currentDraggableSplitIndex projectionOntoPath isDragTriggered_
       lastKnownMouseLocation initialMouseDown
       set_currentDraggableSplitIndex set_projectionOntoPath set_isDragTriggered_
       set_lastKnownMouseLocation set_initialMouseDown resetFields].

(** C5. [onMouseDown] when nothing is hit (no end point, no segment, no
    shape): without the shift or meta key it dispatches [SetSelections([])]
    and nothing else; with the key it dispatches nothing. In both cases it
    returns normally and touches neither the hover nor the canvas. *)
Theorem C5_mouse_down_on_nothing (s : State (K := K)) (mouseDown : Point L)
    (isShiftOrMetaPressed : bool) :
  let hitResult := performHitTest K (component s) mouseDown in
  isEndPointHit hitResult = false ->
  isSegmentHit hitResult = false ->
  isShapeHit hitResult = false ->
  let out := onMouseDown mouseDown isShiftOrMetaPressed s in
  fst out = Ok tt /\
  effects (snd out) =
    effects s ++ (if isShiftOrMetaPressed then [] else [Dispatch (SetSelections [])]).
Proof.
  intros hitResult Hpoint Hsegment Hshape. subst hitResult.
  destruct s as [h c hov es]. run_handler.
  cbn [helper component hover effects] in Hpoint, Hsegment, Hshape.
  rewrite Hpoint, Hsegment, Hshape, andb_false_r. cbn [orb].
  destruct isShiftOrMetaPressed; cbn [negb fst snd effects].
  - split; [reflexivity | symmetry; apply app_nil_r].
  - split; reflexivity.
Qed.

(** C6. Hover tracking in [onMouseMove]. With no split point pending and no
    drag triggered: a miss ([isHit] false) sets the hover to [undefined];
    a hit on an end point sets it to a [Point] hover that carries the
    helper's action source and the indices of the disambiguated hit (the
    last split point among the end point hits, else the last end point
    hit). With a split point pending the hover service is not called and
    the hover stays as it was. *)
Theorem C6_hover_tracking (s : State (K := K)) (mouseMove : Point L) :
  let hitResult := performHitTest K (component s) mouseMove in
  let out := onMouseMove mouseMove s in
  (currentDraggableSplitIndex (helper s) = None ->
   isDragTriggered_ (helper s) = false ->
   isHit hitResult = false ->
   fst out = Ok tt /\ hover (snd out) = None /\
   effects (snd out) = effects s ++ [SetHover None; Draw])
  /\ (currentDraggableSplitIndex (helper s) = None ->
      isDragTriggered_ (helper s) = false ->
      isHit hitResult = true ->
      isEndPointHit hitResult = true ->
      endPointHits hitResult <> [] ->
      exists hit,
        LastSplitOrLast (hitIsSplitPoint (component s)) (endPointHits hitResult) hit /\
        let pointHover :=
          Some (mkHover HoverPoint (actionSource (helper s))
                  (subIdx hit) (Some (cmdIdx hit))) in
        fst out = Ok tt /\ hover (snd out) = pointHover /\
        effects (snd out) = effects s ++ [SetHover pointHover; Draw])
  /\ (currentDraggableSplitIndex (helper s) <> None ->
      hover (snd out) = hover s /\
      exists es, effects (snd out) = effects s ++ es /\ hoverUpdates es = []).
Proof.
  intros hitResult out. subst hitResult out.
  destruct s as [h c hov es]. destruct h as [src idx proj drag lastp down].
  cbn [helper component hover effects currentDraggableSplitIndex isDragTriggered_
       actionSource].
  split; [| split].
  - intros -> -> Hhit. run_handler. unfold checkForHovers. run_handler.
    rewrite Hhit. cbn.
    repeat split. rewrite <- app_assoc. reflexivity.
  - intros -> -> Hhit Hpoint Hne.
    destruct (pickHit_map_spec _ (fun info => isSplitPoint L (ci_cmd info))
                _ (commandInfo c) _ Hne) as (hit & Hlast & Hfind).
    exists hit. split; [exact Hlast|].
    run_handler. unfold checkForHovers. run_handler.
    rewrite Hhit, Hpoint. cbn [negb].
    unfold findHitPoint. rewrite Hfind. cbn.
    repeat split. rewrite <- app_assoc. reflexivity.
  - intros Hidx. destruct idx as [index|]; [clear Hidx | congruence].
    run_handler.
    destruct down as [down|]; cbn.
    + destruct (numLt (dragTriggerTouchSlop c) (distance L down mouseMove)); cbn.
      * destruct (projectOnto (K := K) c mouseMove (Some (subIdx index))); cbn;
          (split; [reflexivity | exists [Draw]; split; reflexivity]).
      * destruct drag; cbn.
        -- destruct (projectOnto (K := K) c mouseMove (Some (subIdx index))); cbn;
             (split; [reflexivity | exists [Draw]; split; reflexivity]).
        -- unfold checkForHovers. run_handler. cbn.
           split; [reflexivity | exists [Draw]; split; reflexivity].
    + split; [reflexivity | exists []; split; [symmetry; apply app_nil_r | reflexivity]].
Qed.

(** [checkForHovers] only talks to the hover service: the helper's fields
    stay as they are and the store receives nothing. *)
Lemma checkForHovers_quiet (mousePoint : Point L) (s : State (K := K)) :
  helper (snd (checkForHovers mousePoint s)) = helper s /\
  exists es, effects (snd (checkForHovers mousePoint s)) = effects s ++ es /\
             dispatched es = [].
Proof.
  destruct s as [h c hov es]. unfold checkForHovers. run_handler.
  assert (Hnil : es = es ++ []) by (symmetry; apply app_nil_r).
  destruct (currentDraggableSplitIndex h); cbn; [split; [reflexivity | exists []; auto] |].
  destruct (performHitTest K c mousePoint) as [hit pt seg shape phits shits shhits]; cbn.
  destruct hit; cbn; [| split; [reflexivity | eexists; split; reflexivity]].
  destruct pt; cbn.
  { destruct (findHitPoint c phits); cbn;
      [split; [reflexivity | eexists; split; reflexivity]
      | split; [reflexivity | exists []; auto]]. }
  assert (Hshape :
    forall s0 : State (K := K),
      helper s0 = h -> effects s0 = es ->
      let m : M unit :=
        if shape && isFilled (activePathLayer c)
        then bind (deref (findHitSubPath c shhits))
               (fun info => setHover (Some (mkHover HoverSubPath (actionSource h)
                                              (sp_subIdx info) None)))
        else ret tt in
      helper (snd (m s0)) = h /\
      exists es', effects (snd (m s0)) = es ++ es' /\ dispatched es' = []).
  { intros [h0 c0 hov0 es0] Hh He. cbn in Hh, He. subst h0 es0. cbn zeta.
    destruct (shape && isFilled (activePathLayer c)); run_handler; cbn.
    - destruct (findHitSubPath c shhits); cbn;
        [split; [reflexivity | eexists; split; reflexivity]
        | split; [reflexivity | exists []; auto]].
    - split; [reflexivity | exists []; auto]. }
  destruct seg; cbn.
  - destruct (isFilled (activePathLayer c)) eqn:Hfilled; cbn.
    + destruct (findHitSegment c shits) as [info|]; cbn;
        [| split; [reflexivity | exists []; auto]].
      destruct (isSplitSegment L _); cbn.
      * split; [reflexivity | eexists; split; reflexivity].
      * specialize (Hshape (mkState h c hov es) eq_refl eq_refl).
        run_handler. exact Hshape.
    + destruct (isStroked (activePathLayer c)); cbn.
      * destruct (findHitSegment c shits) as [info|]; cbn;
          [split; [reflexivity | eexists; split; reflexivity]
          | split; [reflexivity | exists []; auto]].
      * rewrite andb_false_r. cbn. split; [reflexivity | exists []; auto].
  - specialize (Hshape (mkState h c hov es) eq_refl eq_refl).
    run_handler. exact Hshape.
Qed.

(** How every [onMouseUp] ends: [reset], [checkForHovers], [draw]. *)
Lemma mouseUp_ending (mouseUp : Point L) (s : State (K := K)) :
  let out := (reset ;;; checkForHovers mouseUp ;;; draw) s in
  (fst out = Ok tt -> helper (snd out) = resetFields (helper s)) /\
  exists es, effects (snd out) = effects s ++ es /\ dispatched es = [].
Proof.
  destruct s as [h c hov es]. cbv [reset bind modifyHelper draw emit]. cbn.
  destruct (checkForHovers_quiet mouseUp (mkState (resetFields h) c hov es))
    as (Hh & es' & He & Hd).
  destruct (checkForHovers mouseUp (mkState (resetFields h) c hov es)) as [[[]|] s'];
    cbn in *.
  - split; [intros _; exact Hh |].
    exists (es' ++ [Draw]). rewrite He, <- app_assoc. split; [reflexivity|].
    clear - Hd. induction es' as [|e es' IH]; [reflexivity|].
    destruct e; cbn in *; [discriminate | auto | auto].
  - split; [discriminate | exists es'; auto].
Qed.

Lemma dispatched_app (es1 es2 : list (Effect (L := L))) :
  dispatched (es1 ++ es2) = dispatched es1 ++ dispatched es2.
Proof.
  induction es1 as [|e es1 IH]; [reflexivity|].
  destruct e; cbn; rewrite IH; reflexivity.
Qed.

(** C1. A drag-triggered [onMouseUp] whose projection lies on the dragged
    split point's sub-path, on another command: the helper clears the
    hover, dispatches [SetSelections([])] and then one
    [UpdateActivePathBlock] whose path is built from the starting path by
    [splitCommand] at the new index followed by [unsplitCommand] at the old
    index when [newCmdIdx > oldCmdIdx], and by [unsplitCommand] followed by
    [splitCommand] when [newCmdIdx < oldCmdIdx]. Nothing else is
    dispatched. *)
Theorem C1_drag_to_other_command (s : State (K := K)) (mouseUp : Point L)
    (isShiftOrMetaPressed : bool)
    (projOntoPath : ProjectionOntoPath (Projection L)) (old : Index) :
  isDragTriggered_ (helper s) = true ->
  projectionOntoPath (helper s) = Some projOntoPath ->
  currentDraggableSplitIndex (helper s) = Some old ->
  proj_subIdx projOntoPath = subIdx old ->
  proj_cmdIdx projOntoPath <> cmdIdx old ->
  let out := onMouseUp mouseUp isShiftOrMetaPressed s in
  let startingPath := pathData (activePathLayer (component s)) in
  exists rest,
    effects (snd out) =
      effects s ++
      [SetHover None; Dispatch (SetSelections []);
       Dispatch (UpdateActivePathBlock (actionSource (helper s))
                   (movedSplit startingPath old projOntoPath))] ++ rest
    /\ dispatched rest = [].
Proof.
  destruct s as [h c hov es]. destruct h as [src idx proj drag lastp down].
  cbn [helper component effects isDragTriggered_ projectionOntoPath
       currentDraggableSplitIndex actionSource].
  intros -> -> -> Hsub Hcmd.
  unfold movedSplit. run_handler. rewrite Hsub, Z.eqb_refl.
  destruct (Z.gtb_spec (proj_cmdIdx projOntoPath) (cmdIdx old)) as [Hgt | Hle];
    [| destruct (Z.ltb_spec (proj_cmdIdx projOntoPath) (cmdIdx old)) as [Hlt | Hge];
       [| lia]];
    cbn [fst snd helper component hover effects actionSource];
    match goal with
    | |- context [checkForHovers mouseUp ?s0] =>
        destruct (mouseUp_ending mouseUp s0) as (_ & rest & He & Hd)
    end;
    exists rest; (split; [| exact Hd]);
    (etransitivity; [exact He |]);
    cbn [effects]; rewrite <- !app_assoc; reflexivity.
Qed.





Lemma bind_Ok_inv (A B : Type) (m : M (K := K) A) (k : A -> M B)
    (s s' : State) (b : B) :
  bind m k s = (Ok b, s') ->
  exists a s1, m s = (Ok a, s1) /\ k a s1 = (Ok b, s').
Proof.
  unfold bind. destruct (m s) as [[a|] s1]; intros E.
  - exists a, s1. split; [reflexivity | exact E].
  - discriminate.
Qed.

Lemma gestureCleared_reset (s : State (K := K)) (h : Helper) :
  helper s = resetFields h -> gestureCleared s.
Proof.
  intros E. unfold gestureCleared, isDragTriggered, getDraggableSplitIndex,
    getProjectionOntoPath, getLastKnownMouseLocation.
  rewrite E. repeat split.
Qed.

(** C10. The gesture state is cleared when a gesture ends: in the state in
    which [onMouseUp] returns, and in the state [onMouseLeave] leaves (it
    always returns), [isDragTriggered()] is false and
    [getDraggableSplitIndex()], [getProjectionOntoPath()] and
    [getLastKnownMouseLocation()] are [undefined]; the location assigned on
    entry does not survive the [reset]. *)
Theorem C10_gesture_cleared (s : State (K := K)) (mousePoint : Point L)
    (isShiftOrMetaPressed : bool) :
  (forall s', onMouseUp mousePoint isShiftOrMetaPressed s = (Ok tt, s') ->
              gestureCleared s')
  /\ (exists s', onMouseLeave mousePoint s = (Ok tt, s') /\ gestureCleared s').
Proof.
  split.
  - intros s' E. unfold onMouseUp in E.
    apply bind_Ok_inv in E. destruct E as (_ & s1 & _ & E).
    apply bind_Ok_inv in E. destruct E as (h & s2 & _ & E).
    apply bind_Ok_inv in E. destruct E as (_ & s3 & _ & E).
    destruct (mouseUp_ending mousePoint s3) as (Hh & _).
    apply gestureCleared_reset with (h := helper s3).
    pose proof (f_equal snd E) as Es. cbn [snd] in Es. rewrite <- Es.
    apply Hh. rewrite E. reflexivity.
  - eexists. split; [reflexivity |].
    apply gestureCleared_reset with (h := set_lastKnownMouseLocation (Some mousePoint) (helper s)).
    reflexivity.
Qed.

(** *** Properties kept along a handler *)

Lemma keeps_bind (A B : Type) (P : Helper -> Prop) (m : M (K := K) A) (k : A -> M B) :
  keeps P m -> (forall a, keeps P (k a)) -> keeps P (bind m k).
Proof.
  intros Hm Hk s Hs. unfold bind. specialize (Hm s Hs).
  destruct (m s) as [[a|] s1]; cbn in *; [apply Hk; exact Hm | exact Hm].
Qed.

Lemma keeps_ret (A : Type) (P : Helper -> Prop) (a : A) : keeps (K := K) P (ret a).
Proof. intros s Hs. exact Hs. Qed.

Lemma keeps_deref (A : Type) (P : Helper -> Prop) (o : option A) :
  keeps (K := K) P (deref o).
Proof. intros s Hs. destruct o; exact Hs. Qed.

Lemma keeps_getHelper (P : Helper -> Prop) : keeps (K := K) P getHelper.
Proof. intros s Hs. exact Hs. Qed.

Lemma keeps_getComponent (P : Helper -> Prop) : keeps (K := K) P getComponent.
Proof. intros s Hs. exact Hs. Qed.

Lemma keeps_setComponent (P : Helper -> Prop) (c : Comp) :
  keeps (K := K) P (setComponent c).
Proof. intros s Hs. exact Hs. Qed.

Lemma keeps_emit (P : Helper -> Prop) (e : Effect) : keeps (K := K) P (emit e).
Proof. intros s Hs. exact Hs. Qed.

Lemma keeps_modifyHelper (P : Helper -> Prop) (f : Helper -> Helper) :
  (forall h, P h -> P (f h)) -> keeps (K := K) P (modifyHelper f).
Proof. intros Hf s Hs. apply Hf. exact Hs. Qed.

Lemma keeps_checkForHovers (P : Helper -> Prop) (p : Point L) :
  keeps (K := K) P (checkForHovers p).
Proof.
  intros s Hs. destruct (checkForHovers_quiet p s) as (E & _). rewrite E. exact Hs.
Qed.

Lemma keeps_calculateProjectionOntoPath (P : Helper -> Prop) (p : Point L)
    (restrict : option Z) :
  keeps (K := K) P (calculateProjectionOntoPath p restrict).
Proof. intros s Hs. exact Hs. Qed.

(** One step of a proof that a handler keeps a property: split a [bind],
    take a branch, or close a primitive that leaves the helper alone. *)
Ltac keeps_step :=
  match goal with
  | |- keeps _ (bind _ _) => apply keeps_bind; [| intros ?]
  | |- keeps _ (ret _) => apply keeps_ret
  | |- keeps _ (deref _) => apply keeps_deref
  | |- keeps _ getHelper => apply keeps_getHelper
  | |- keeps _ getComponent => apply keeps_getComponent
  | |- keeps _ (setComponent _) => apply keeps_setComponent
  | |- keeps _ (dispatch _) => apply keeps_emit
  | |- keeps _ (setHover _) => apply keeps_emit
  | |- keeps _ draw => apply keeps_emit
  | |- keeps _ (checkForHovers _) => apply keeps_checkForHovers
  | |- keeps _ (calculateProjectionOntoPath _ _) =>
      apply keeps_calculateProjectionOntoPath
  | |- keeps _ (if ?b then _ else _) => destruct b
  | |- keeps _ (match ?o with Some _ => _ | None => _ end) => destruct o
  end.

Lemma dragHasTarget_reset (h : Helper (L := L)) : dragHasTarget (resetFields h).
Proof. split; cbn; [discriminate | congruence]. Qed.

Lemma dragHasTarget_lastKnown (h : Helper (L := L)) (v : option (Point L)) :
  dragHasTarget h -> dragHasTarget (set_lastKnownMouseLocation v h).
Proof. intros H. exact H. Qed.

Lemma onMouseUp_keeps (p : Point L) (b : bool) :
  keeps (K := K) dragHasTarget (onMouseUp p b).
Proof.
  unfold onMouseUp, reset. cbv zeta.
  repeat first
    [ keeps_step
    | apply keeps_modifyHelper; intros h Hh;
      first [ apply dragHasTarget_reset | exact Hh ] ].
Qed.

Lemma onMouseLeave_keeps (p : Point L) :
  keeps (K := K) dragHasTarget (onMouseLeave p).
Proof.
  unfold onMouseLeave, reset.
  repeat first
    [ keeps_step
    | apply keeps_modifyHelper; intros h Hh;
      first [ apply dragHasTarget_reset | exact Hh ] ].
Qed.

(** During [onMouseDown] the mouse down location is known, so that the
    split point may be recorded. *)
Lemma onMouseDown_keeps (p : Point L) (b : bool) :
  keeps (K := K) dragHasTarget (onMouseDown p b).
Proof.
  intros s Hs.
  pose (P := fun h : Helper (L := L) => dragHasTarget h /\ initialMouseDown h <> None).
  cut (P (helper (snd (onMouseDown p b s)))); [intros [H _]; exact H |].
  unfold onMouseDown. unfold bind at 1. cbn [modifyHelper]. cbv zeta.
  match goal with
  | |- P (helper (snd (?m ?s1))) =>
      assert (Hk : keeps P m); [| apply (Hk s1) ]
  end.
  - repeat first
      [ keeps_step
      | apply keeps_modifyHelper; intros h [Hh Hdown]; split;
        [ split; cbn; [ try apply Hh; try discriminate | intros _; exact Hdown ]
        | exact Hdown ] ].
  - cbn. split; [| discriminate]. split; [apply Hs | discriminate].
Qed.

(** [onMouseMove] sets the drag flag under the guard that a split point is
    pending, and then returns: with its target, the drag branch cannot
    raise. *)
Lemma onMouseMove_drag (p : Point L) (s : State (K := K)) :
  dragHasTarget (helper s) ->
  dragHasTarget (helper (snd (onMouseMove p s))) /\
  (isDragTriggered (snd (onMouseMove p s)) = true -> fst (onMouseMove p s) = Ok tt).
Proof.
  destruct s as [h c hov es]. destruct h as [src idx proj drag lastp down].
  unfold dragHasTarget, isDragTriggered. cbn [helper isDragTriggered_
    currentDraggableSplitIndex initialMouseDown].
  intros [Htarget Hdown]. run_handler.
  destruct idx as [index|]; cbn.
  - destruct down as [down|]; [| exfalso; apply Hdown; [discriminate | reflexivity]].
    cbn. destruct (numLt (dragTriggerTouchSlop c) (distance L down p)); cbn.
    + repeat split; congruence.
    + destruct drag; cbn.
      * repeat split; congruence.
      * unfold checkForHovers. run_handler. cbn. repeat split; congruence.
  - destruct drag; [exfalso; apply Htarget; reflexivity |]. cbn.
    destruct (checkForHovers_quiet p (mkState (mkHelper src None proj false (Some p) down) c hov es))
      as (Hh & _).
    destruct (checkForHovers p _) as [[[]|] s1]; cbn in *; rewrite Hh; cbn;
      repeat split; congruence.
Qed.

Lemma handle_keeps (ev : MouseEvent) : keeps (K := K) dragHasTarget (handle ev).
Proof.
  destruct ev as [p b | p | p b | p]; cbn [handle].
  - apply onMouseDown_keeps.
  - intros s Hs. apply (onMouseMove_drag p s Hs).
  - apply onMouseUp_keeps.
  - apply onMouseLeave_keeps.
Qed.

Lemma reachable_dragHasTarget (s : State (K := K)) :
  reachable s -> dragHasTarget (helper s).
Proof.
  induction 1 as [source c hov | ev s _ IH | s c hov _ IH].
  - split; cbn; [discriminate | congruence].
  - apply handle_keeps. exact IH.
  - exact IH.
Qed.

(** C9. In every state the helper reaches through [onMouseDown],
    [onMouseMove], [onMouseUp] and [onMouseLeave] (the calls that raise
    included), a triggered drag has its split point:
    [isDragTriggered_] implies that [currentDraggableSplitIndex] is defined.
    Hence an [onMouseMove] that takes the drag branch, the one that reads
    [currentDraggableSplitIndex.subIdx], returns without raising. *)
Theorem C9_drag_has_target (s : State (K := K)) :
  reachable s ->
  (isDragTriggered_ (helper s) = true -> currentDraggableSplitIndex (helper s) <> None)
  /\ (forall mouseMove,
        isDragTriggered (snd (onMouseMove mouseMove s)) = true ->
        fst (onMouseMove mouseMove s) = Ok tt).
Proof.
  intros Hreach. pose proof (reachable_dragHasTarget s Hreach) as Hinv.
  split.
  - apply Hinv.
  - intros p. apply (onMouseMove_drag p s Hinv).
Qed.

End Handlers.

(** *** Two runs against directives the helper cannot tell apart *)
Section TwoRuns.

Context {L : PathLib} {K : @Canvas L}.

Local Abbreviation Comp := (Component (L := L) (Hidden K)).

Variable R : Comp -> Comp -> Prop.
Hypothesis HR : SameQueries R.
Variables log1 log2 : list (Effect (L := L)).

Local Abbreviation sim2 := (sim R log1 log2).

Lemma sim_bind (A B : Type) (RA : A -> A -> Prop) (RB : B -> B -> Prop)
    (m1 m2 : M (K := K) A) (k1 k2 : A -> M B) :
  sim2 RA m1 m2 ->
  (forall a1 a2, RA a1 a2 -> sim2 RB (k1 a1) (k2 a2)) ->
  sim2 RB (bind m1 k1) (bind m2 k2).
Proof.
  intros Hm Hk s1 s2 Hs. unfold bind. specialize (Hm s1 s2 Hs).
  destruct (m1 s1) as [[a1|] s1'], (m2 s2) as [[a2|] s2']; cbn in Hm;
    destruct Hm as [Ha Hs']; try contradiction.
  - apply Hk; assumption.
  - split; [exact I | exact Hs'].
Qed.

Lemma sim_ret (A : Type) (RA : A -> A -> Prop) (a1 a2 : A) :
  RA a1 a2 -> sim2 RA (ret a1) (ret a2).
Proof. intros Ha s1 s2 Hs. split; [exact Ha | exact Hs]. Qed.

Lemma sim_deref (A : Type) (o : option A) : sim2 eq (deref o) (deref o).
Proof. intros s1 s2 Hs. destruct o; (split; [reflexivity | exact Hs]). Qed.

Lemma sim_getHelper : sim2 eq getHelper getHelper.
Proof. intros s1 s2 Hs. split; [apply Hs | exact Hs]. Qed.

Lemma sim_getComponent : sim2 R getComponent getComponent.
Proof. intros s1 s2 Hs. split; [apply Hs | exact Hs]. Qed.

Lemma sim_modifyHelper (f : Helper -> Helper) :
  sim2 eq (modifyHelper f) (modifyHelper f).
Proof.
  intros s1 s2 (Hh & Hc & He). split; [reflexivity |].
  split; [cbn; rewrite Hh; reflexivity | split; assumption].
Qed.

Lemma sim_setComponent (c1 c2 : Comp) :
  R c1 c2 -> sim2 eq (setComponent c1) (setComponent c2).
Proof.
  intros Hc s1 s2 (Hh & _ & He). split; [reflexivity |].
  split; [exact Hh | split; assumption].
Qed.

Lemma sim_emit (e : Effect) : sim2 eq (emit e) (emit e).
Proof.
  intros s1 s2 (Hh & Hc & es & E1 & E2). split; [reflexivity |].
  split; [exact Hh | split].
  - cbn. apply (same_react HR). exact Hc.
  - exists (es ++ [e]). cbn. rewrite E1, E2, !app_assoc. split; reflexivity.
Qed.

Lemma findHitPoint_same (c1 c2 : Comp) (hits : list Index) :
  R c1 c2 -> findHitPoint c1 hits = findHitPoint c2 hits.
Proof.
  intros Hc. unfold findHitPoint.
  rewrite (map_ext (commandInfo c1) (commandInfo c2)); [reflexivity |].
  intros hit. unfold commandInfo. rewrite (same_getCommand HR _ _ _ _ Hc). reflexivity.
Qed.

Lemma findHitSegment_same (c1 c2 : Comp) (hits : list Index) :
  R c1 c2 -> findHitSegment c1 hits = findHitSegment c2 hits.
Proof.
  intros Hc. unfold findHitSegment.
  rewrite (map_ext (commandInfo c1) (commandInfo c2)); [reflexivity |].
  intros hit. unfold commandInfo. rewrite (same_getCommand HR _ _ _ _ Hc). reflexivity.
Qed.

Lemma findHitSubPath_same (c1 c2 : Comp) (hits : list Z) :
  R c1 c2 -> findHitSubPath c1 hits = findHitSubPath c2 hits.
Proof.
  intros Hc. unfold findHitSubPath.
  rewrite (map_ext (subPathInfo c1) (subPathInfo c2)); [reflexivity |].
  intros sub. unfold subPathInfo. rewrite (same_getSubPath HR _ _ _ Hc). reflexivity.
Qed.

Lemma sim_calculateProjectionOntoPath (p : Point L) (restrict : option Z) :
  sim2 eq (calculateProjectionOntoPath p restrict)
          (calculateProjectionOntoPath p restrict).
Proof.
  unfold calculateProjectionOntoPath.
  eapply sim_bind; [apply sim_getComponent |].
  intros c1 c2 Hc. apply sim_ret. apply (same_project HR). exact Hc.
Qed.

(** Rewrite what the first directive answers into what the second one
    answers. *)
Ltac same_answers H :=
  match type of H with
  | R ?c1 ?c2 =>
      repeat rewrite (same_hitTest HR c1 c2 _ H);
      repeat rewrite (findHitPoint_same c1 c2 _ H);
      repeat rewrite (findHitSegment_same c1 c2 _ H);
      repeat rewrite (findHitSubPath_same c1 c2 _ H);
      repeat rewrite (same_getCommand HR c1 c2 _ _ H);
      repeat rewrite (same_pathData HR c1 c2 H);
      repeat rewrite (same_isFilled HR c1 c2 H);
      repeat rewrite (same_isStroked HR c1 c2 H);
      repeat rewrite (same_slop HR c1 c2 H)
  end.

Ltac all_same_answers :=
  repeat match goal with
         | H : R _ _ |- _ => progress same_answers H
         end.

Ltac sim_solve :=
  lazymatch goal with
  | |- sim _ _ _ _ (bind getComponent _) (bind getComponent _) =>
      apply sim_bind with (RA := R);
      [ apply sim_getComponent
      | let c1 := fresh "c" in let c2 := fresh "c" in let Hc := fresh "Hc" in
        intros c1 c2 Hc; all_same_answers; sim_solve ]
  | |- sim _ _ _ _ (bind _ _) (bind _ _) =>
      apply sim_bind with (RA := eq);
      [ sim_solve
      | let a1 := fresh "a" in let a2 := fresh "a" in let Ha := fresh "Ha" in
        intros a1 a2 Ha; subst a1; all_same_answers; sim_solve ]
  | |- sim _ _ _ _ (ret _) (ret _) => apply sim_ret; reflexivity
  | |- sim _ _ _ _ (deref _) (deref _) => apply sim_deref
  | |- sim _ _ _ _ getHelper getHelper => apply sim_getHelper
  | |- sim _ _ _ _ (modifyHelper _) (modifyHelper _) => apply sim_modifyHelper
  | |- sim _ _ _ _ reset reset => apply sim_modifyHelper
  | |- sim _ _ _ _ (setComponent _) (setComponent _) =>
      apply sim_setComponent; apply (same_assign HR); assumption
  | |- sim _ _ _ _ (dispatch _) (dispatch _) => apply sim_emit
  | |- sim _ _ _ _ (setHover _) (setHover _) => apply sim_emit
  | |- sim _ _ _ _ draw draw => apply sim_emit
  | |- sim _ _ _ _ (calculateProjectionOntoPath _ _) (calculateProjectionOntoPath _ _) =>
      apply sim_calculateProjectionOntoPath
  | |- sim _ _ _ _ (checkForHovers _) (checkForHovers _) =>
      unfold checkForHovers; cbv zeta; sim_solve
  | |- sim _ _ _ _ (if ?b then _ else _) (if ?b then _ else _) =>
      destruct b; sim_solve
  | |- sim _ _ _ _ (match ?o with Some _ => _ | None => _ end)
                   (match ?o with Some _ => _ | None => _ end) =>
      destruct o; sim_solve
  end.

Lemma sim_checkForHovers (p : Point L) :
  sim2 eq (checkForHovers p) (checkForHovers p).
Proof. sim_solve. Qed.

Lemma sim_onMouseDown (p : Point L) (b : bool) :
  sim2 eq (onMouseDown p b) (onMouseDown p b).
Proof. unfold onMouseDown. cbv zeta. sim_solve. Qed.

Lemma sim_onMouseMove (p : Point L) : sim2 eq (onMouseMove p) (onMouseMove p).
Proof. unfold onMouseMove. cbv zeta. sim_solve. Qed.

Lemma sim_onMouseUp (p : Point L) (b : bool) :
  sim2 eq (onMouseUp p b) (onMouseUp p b).
Proof. unfold onMouseUp. cbv zeta. sim_solve. Qed.

Lemma sim_onMouseLeave (p : Point L) : sim2 eq (onMouseLeave p) (onMouseLeave p).
Proof. unfold onMouseLeave. sim_solve. Qed.

Lemma sim_handle (ev : MouseEvent) : sim2 eq (handle ev) (handle ev).
Proof.
  destruct ev; cbn [handle].
  - apply sim_onMouseDown.
  - apply sim_onMouseMove.
  - apply sim_onMouseUp.
  - apply sim_onMouseLeave.
Qed.

(** C8. The handlers are deterministic in what they are given. Take one
    handler call (same event, mouse point and modifier flag) run twice from
    the same helper fields, against two directives that answer every query
    of the helper alike ([SameQueries]), with any hover and any store log
    before the call. Then both runs end the same way (both return or both
    raise), produce the same effects in the same order (store dispatches,
    hover updates and draws), leave the helper with the same fields, and
    leave directives that still answer alike. *)
Theorem C8_handlers_deterministic (ev : MouseEvent) (h : Helper)
    (c1 c2 : Comp) (hov1 hov2 : option Hover) :
  R c1 c2 ->
  let out1 := handle ev (mkState h c1 hov1 log1) in
  let out2 := handle ev (mkState h c2 hov2 log2) in
  fst out1 = fst out2
  /\ helper (snd out1) = helper (snd out2)
  /\ (exists es, effects (snd out1) = log1 ++ es /\ effects (snd out2) = log2 ++ es)
  /\ R (component (snd out1)) (component (snd out2)).
Proof.
  intros Hc out1 out2.
  assert (Hstart : agree R log1 log2 (mkState h c1 hov1 log1) (mkState h c2 hov2 log2)).
  { split; [reflexivity | split; [exact Hc |]].
    exists []. cbn. rewrite !app_nil_r. split; reflexivity. }
  destruct (sim_handle ev _ _ Hstart) as (Hout & Hh & Hcomp & Hes).
  fold out1 out2 in Hout, Hh, Hcomp, Hes.
  repeat split; try assumption.
  destruct (fst out1) as [[]|], (fst out2) as [[]|]; cbn in Hout;
    try contradiction; reflexivity.
Qed.

End TwoRuns.

(** *** The rest of the handlers' behaviour *)
Section Coverage.

Context {L : PathLib} {K : @Canvas L}.

Local Abbreviation Comp := (Component (L := L) (Hidden K)).

Arguments checkForHovers : simpl never.
Arguments projectOnto : simpl never.

(** Symbolic run of a handler: the monad's operations and the field
    assignments are unfolded, the searches and [checkForHovers] are not. *)
Ltac run_handler :=
  cbv [onMouseDown onMouseMove onMouseUp onMouseLeave
       calculateProjectionOntoPath reset bind ret throw deref getHelper
       getComponent modifyHelper setComponent dispatch setHover draw emit];
  cbn [helper component hover effects fst snd
       actionSource currentDraggableSplitIndex projectionOntoPath isDragTriggered_
       lastKnownMouseLocation initialMouseDown
       set_currentDraggableSplitIndex set_projectionOntoPath set_isDragTriggered_
       set_lastKnownMouseLocation set_initialMouseDown resetFields].

Lemma LastSplitOrLast_some_split (A : Type) (splitp : A -> bool) (l : list A) (x : A) :
  (exists y, In y l /\ splitp y = true) ->
  LastSplitOrLast splitp l x -> splitp x = true.
Proof.
  intros (y & Hy & Hsplit) [(before & after & _ & Hx & _) | (Hall & _)].
  - exact Hx.
  - rewrite (Hall y Hy) in Hsplit. discriminate.
Qed.

Lemma LastSplitOrLast_none_split (A : Type) (splitp : A -> bool) (l : list A) (x : A) :
  (forall y, In y l -> splitp y = false) ->
  LastSplitOrLast splitp l x -> exists before, l = before ++ [x].
Proof.
  intros Hall [(before & after & -> & Hx & _) | (_ & Hlast)].
  - rewrite Hall in Hx; [discriminate | apply in_elt].
  - exact Hlast.
Qed.

(** The three searches on a non-empty list, from the shared lemma on
    [pickHit]. *)
Lemma findHit_on_hits (c : Comp) :
  (forall hits : list Index, hits <> [] ->
     exists hit, LastSplitOrLast (hitIsSplitPoint c) hits hit /\
                 findHitPoint c hits = Some (commandInfo c hit))
  /\ (forall hits : list Index, hits <> [] ->
        exists hit, LastSplitOrLast (hitIsSplitSegment c) hits hit /\
                    findHitSegment c hits = Some (commandInfo c hit))
  /\ (forall hits : list Z, hits <> [] ->
        exists sub, LastSplitOrLast (hitIsSplitSubPath c) hits sub /\
                    findHitSubPath c hits = Some (subPathInfo c sub)).
Proof.
  repeat split; intros hits Hne.
  - exact (pickHit_map_spec _ (fun info => isSplitPoint L (ci_cmd info))
             _ (commandInfo c) _ Hne).
  - exact (pickHit_map_spec _ (fun info => isSplitSegment L (ci_cmd info))
             _ (commandInfo c) _ Hne).
  - exact (pickHit_map_spec _ (fun info => isSplit L (sp_subPath info))
             _ (subPathInfo c) _ Hne).
Qed.


(** A search that returns [undefined] was given no hit. *)
Lemma findHit_none_nil (c : Comp) :
  (forall hits, findHitPoint c hits = None -> hits = [])
  /\ (forall hits, findHitSegment c hits = None -> hits = [])
  /\ (forall hits, findHitSubPath c hits = None -> hits = []).
Proof.
  destruct (findHit_on_hits c) as (Hp & Hs & Hsp).
  repeat split; intros [|hit hits] H; try reflexivity; exfalso.
  - destruct (Hp (hit :: hits)) as (x & _ & E); [discriminate | congruence].
  - destruct (Hs (hit :: hits)) as (x & _ & E); [discriminate | congruence].
  - destruct (Hsp (hit :: hits)) as (x & _ & E); [discriminate | congruence].
Qed.

(** X1. The three searches return [undefined] on the empty list of hits
    and on no other list. *)
Theorem findHit_undefined_iff_empty (c : Comp) :
  (forall hits, findHitPoint c hits = None <-> hits = [])
  /\ (forall hits, findHitSegment c hits = None <-> hits = [])
  /\ (forall hits, findHitSubPath c hits = None <-> hits = []).
Proof.
  destruct (findHit_on_hits c) as (Hp & Hs & Hsp).
  repeat split; intros H;
    try (subst; reflexivity);
    destruct hits as [|hit hits]; try reflexivity; exfalso.
  - destruct (Hp (hit :: hits)) as (x & _ & E); [discriminate | congruence].
  - destruct (Hs (hit :: hits)) as (x & _ & E); [discriminate | congruence].
  - destruct (Hsp (hit :: hits)) as (x & _ & E); [discriminate | congruence].
Qed.

(** X2. A mouse down on a split point selects nothing yet: when an end
    point is hit and one of the end point hits is a split point,
    [onMouseDown] returns, records the last split point among the hits as
    the point that may be dragged, together with the mouse point, and has
    no effect on the store, the hover or the canvas. *)
Theorem mouseDown_on_split_point (s : State (K := K)) (mouseDown : Point L)
    (isShiftOrMetaPressed : bool) :
  let hitResult := performHitTest K (component s) mouseDown in
  isEndPointHit hitResult = true ->
  (exists hit, In hit (endPointHits hitResult) /\
               hitIsSplitPoint (component s) hit = true) ->
  exists hit,
    LastSplitOrLast (hitIsSplitPoint (component s)) (endPointHits hitResult) hit
    /\ hitIsSplitPoint (component s) hit = true
    /\ onMouseDown mouseDown isShiftOrMetaPressed s
       = (Ok tt,
          mkState
            (mkHelper (actionSource (helper s))
               (Some (mkIndex (subIdx hit) (cmdIdx hit)))
               (projectionOntoPath (helper s)) (isDragTriggered_ (helper s))
               (Some mouseDown) (Some mouseDown))
            (component s) (hover s) (effects s)).
Proof.
  intros hitResult Hpoint Hsome. subst hitResult.
  destruct (proj1 (findHit_on_hits (component s))
              (endPointHits (performHitTest K (component s) mouseDown)))
    as (hit & Hlast & Hfind).
  { destruct Hsome as (y & Hy & _). intros E. rewrite E in Hy. exact Hy. }
  pose proof (LastSplitOrLast_some_split _ _ _ _ Hsome Hlast) as Hsplit.
  exists hit. split; [exact Hlast | split; [exact Hsplit |]].
  destruct s as [h c hov es]. cbn [helper component hover effects] in *.
  run_handler. rewrite Hpoint, Hfind. cbn.
  unfold hitIsSplitPoint in Hsplit. rewrite Hsplit. reflexivity.
Qed.

(** X3. A mouse down on end points none of which is a split point toggles
    the selection of the last end point hit, with the modifier flag, and
    that is its only effect; no point is recorded for dragging. *)
Theorem mouseDown_on_plain_point (s : State (K := K)) (mouseDown : Point L)
    (isShiftOrMetaPressed : bool) :
  let hitResult := performHitTest K (component s) mouseDown in
  let out := onMouseDown mouseDown isShiftOrMetaPressed s in
  isEndPointHit hitResult = true ->
  endPointHits hitResult <> [] ->
  (forall hit, In hit (endPointHits hitResult) ->
               hitIsSplitPoint (component s) hit = false) ->
  exists before hit,
    endPointHits hitResult = before ++ [hit]
    /\ fst out = Ok tt
    /\ effects (snd out)
       = effects s ++
         [Dispatch (TogglePointSelection (actionSource (helper s))
                      (subIdx hit) (cmdIdx hit) isShiftOrMetaPressed)]
    /\ currentDraggableSplitIndex (helper (snd out))
       = currentDraggableSplitIndex (helper s).
Proof.
  intros hitResult out Hpoint Hne Hnone. subst hitResult out.
  destruct (proj1 (findHit_on_hits (component s)) _ Hne) as (hit & Hlast & Hfind).
  destruct (LastSplitOrLast_none_split _ _ _ _ Hnone Hlast) as (before & Hbefore).
  exists before, hit. split; [exact Hbefore |].
  assert (Hplain : hitIsSplitPoint (component s) hit = false).
  { apply Hnone. rewrite Hbefore. apply in_elt. }
  destruct s as [h c hov es]. cbn [helper component hover effects] in *.
  run_handler. rewrite Hpoint, Hfind. cbn.
  unfold hitIsSplitPoint in Hplain. rewrite Hplain. cbn. repeat split.
Qed.

(** X4. A mouse down on a split segment of a filled layer: when no end
    point is hit, the layer is filled, a segment is hit and one of the
    segment hits is a split segment, [onMouseDown] dispatches one
    [ToggleSegmentSelections] with the last split segment among the hits,
    and nothing else. *)
Theorem mouseDown_on_split_segment (s : State (K := K)) (mouseDown : Point L)
    (isShiftOrMetaPressed : bool) :
  let hitResult := performHitTest K (component s) mouseDown in
  let out := onMouseDown mouseDown isShiftOrMetaPressed s in
  isEndPointHit hitResult = false ->
  isFilled (activePathLayer (component s)) = true ->
  isSegmentHit hitResult = true ->
  (exists hit, In hit (segmentHits hitResult) /\
               hitIsSplitSegment (component s) hit = true) ->
  exists hit,
    LastSplitOrLast (hitIsSplitSegment (component s)) (segmentHits hitResult) hit
    /\ hitIsSplitSegment (component s) hit = true
    /\ fst out = Ok tt
    /\ effects (snd out)
       = effects s ++
         [Dispatch (ToggleSegmentSelections (actionSource (helper s))
                      [mkIndex (subIdx hit) (cmdIdx hit)])].
Proof.
  intros hitResult out Hpoint Hfilled Hsegment Hsome. subst hitResult out.
  destruct (proj1 (proj2 (findHit_on_hits (component s)))
              (segmentHits (performHitTest K (component s) mouseDown)))
    as (hit & Hlast & Hfind).
  { destruct Hsome as (y & Hy & _). intros E. rewrite E in Hy. exact Hy. }
  pose proof (LastSplitOrLast_some_split _ _ _ _ Hsome Hlast) as Hsplit.
  exists hit. split; [exact Hlast | split; [exact Hsplit |]].
  destruct s as [h c hov es]. cbn [helper component hover effects] in *.
  run_handler. rewrite Hpoint, Hfilled, Hsegment, Hfind. cbn.
  unfold hitIsSplitSegment in Hsplit. rewrite Hsplit. cbn. split; reflexivity.
Qed.

(** X5. A mouse down on a sub-path: when no end point is hit, a segment or
    the shape is hit, and the hit is no split segment of a filled layer
    (the layer is not filled, or no segment is hit, or no segment hit is a
    split segment), [onMouseDown] dispatches one [ToggleSubPathSelection]
    and nothing else. The sub-path is searched among the shape hits when
    the shape is hit, and among the segment hits otherwise: it is the last
    split sub-path among them, else the last of them. *)
Theorem mouseDown_on_sub_path (s : State (K := K)) (mouseDown : Point L)
    (isShiftOrMetaPressed : bool) :
  let hitResult := performHitTest K (component s) mouseDown in
  let out := onMouseDown mouseDown isShiftOrMetaPressed s in
  let hits := if isShapeHit hitResult then shapeHits hitResult
              else map subIdx (segmentHits hitResult) in
  isEndPointHit hitResult = false ->
  isSegmentHit hitResult || isShapeHit hitResult = true ->
  hits <> [] ->
  (isFilled (activePathLayer (component s)) = false
   \/ isSegmentHit hitResult = false
   \/ (segmentHits hitResult <> [] /\
       forall hit, In hit (segmentHits hitResult) ->
                   hitIsSplitSegment (component s) hit = false)) ->
  exists sub,
    LastSplitOrLast (hitIsSplitSubPath (component s)) hits sub
    /\ fst out = Ok tt
    /\ effects (snd out)
       = effects s ++
         [Dispatch (ToggleSubPathSelection (actionSource (helper s)) sub)].
Proof.
  intros hitResult out hits Hpoint Hany Hne Hplain. subst hitResult out hits.
  destruct (proj2 (proj2 (findHit_on_hits (component s))) _ Hne)
    as (sub & Hlast & Hfind).
  exists sub. split; [exact Hlast |].
  destruct s as [h c hov es]. cbn [helper component hover effects] in *.
  fold (subPathHits (performHitTest K c mouseDown)) in Hfind.
  run_handler. rewrite Hpoint, Hany.
  destruct Hplain as [Hfilled | [Hsegment | (Hsome & Hnone)]].
  - rewrite Hfilled. cbn [andb]. rewrite Hfind. cbn. split; reflexivity.
  - rewrite Hsegment, andb_false_r. rewrite Hfind. cbn. split; reflexivity.
  - destruct (isFilled (activePathLayer c) && isSegmentHit (performHitTest K c mouseDown));
      [| rewrite Hfind; cbn; split; reflexivity].
    destruct (proj1 (proj2 (findHit_on_hits c)) _ Hsome) as (hit & Hlast' & Hfind').
    rewrite Hfind'. cbn.
    destruct (LastSplitOrLast_none_split _ _ _ _ Hnone Hlast') as (before & Hbefore).
    assert (Hhit : hitIsSplitSegment c hit = false).
    { apply Hnone. rewrite Hbefore. apply in_elt. }
    unfold hitIsSplitSegment in Hhit. rewrite Hhit, Hfind. cbn. split; reflexivity.
Qed.

(** Case analysis on every test and every search result met while a handler
    is run symbolically. *)
Ltac split_cases :=
  repeat (match goal with
          | |- context [if ?b then _ else _] => destruct b eqn:?
          | |- context [match ?o with Some _ => _ | None => _ end] => destruct o eqn:?
          end;
          cbn [fst snd helper component hover effects negb andb orb]).

(** X6. What [onMouseDown] never does: whatever is hit, and whether it
    returns or raises, it dispatches at most one action, which is never an
    [UpdateActivePathBlock]; it never calls the hover service, and it
    never redraws. *)
Theorem mouseDown_at_most_one_action (s : State (K := K)) (mouseDown : Point L)
    (isShiftOrMetaPressed : bool) :
  let out := onMouseDown mouseDown isShiftOrMetaPressed s in
  hover (snd out) = hover s
  /\ exists es,
       effects (snd out) = effects s ++ es
       /\ (es = [] \/ exists a, es = [Dispatch a] /\ isPathUpdate (Dispatch a) = false).
Proof.
  destruct s as [h c hov es]. run_handler.
  destruct (performHitTest K c mouseDown) as [hit pt seg shape phits shits shhits].
  cbn [isEndPointHit isSegmentHit isShapeHit endPointHits segmentHits shapeHits].
  split_cases;
    (split; [reflexivity |]);
    first [ exists []; split; [symmetry; apply app_nil_r | left; reflexivity]
          | eexists; split; [reflexivity | right; eexists; split; reflexivity] ].
Qed.

(** X7. [onMouseDown] returns whenever the hit result's raised flags come
    with hits: the destructuring of a search result can only raise on an
    empty list of hits. *)
Theorem mouseDown_returns (s : State (K := K)) (mouseDown : Point L)
    (isShiftOrMetaPressed : bool) :
  flagsHaveHits (performHitTest K (component s) mouseDown) ->
  fst (onMouseDown mouseDown isShiftOrMetaPressed s) = Ok tt.
Proof.
  intros (Hpoint & Hsegment & Hshape).
  destruct (findHit_none_nil (component s)) as (Ep & Es & Esp).
  destruct s as [h c hov es]. cbn [component] in *. run_handler.
  destruct (isEndPointHit (performHitTest K c mouseDown)) eqn:Fpoint.
  - destruct (findHitPoint c _) eqn:E.
    + cbn. destruct (isSplitPoint L _); reflexivity.
    + apply Ep in E. exfalso. apply Hpoint; [reflexivity | exact E].
  - assert (Hsub :
      isSegmentHit (performHitTest K c mouseDown)
        || isShapeHit (performHitTest K c mouseDown) = true ->
      findHitSubPath c (subPathHits (performHitTest K c mouseDown)) <> None).
    { intros Hany E. apply Esp in E. unfold subPathHits in E.
      destruct (isShapeHit (performHitTest K c mouseDown)).
      - apply Hshape; [reflexivity | exact E].
      - rewrite orb_false_r in Hany. apply map_eq_nil in E.
        apply Hsegment; assumption. }
    assert (Hrest :
      forall s0 : State (K := K),
        fst ((if isSegmentHit (performHitTest K c mouseDown)
                 || isShapeHit (performHitTest K c mouseDown)
              then bind (deref (findHitSubPath c
                                  (subPathHits (performHitTest K c mouseDown))))
                     (fun info => dispatch (ToggleSubPathSelection (actionSource h)
                                              (sp_subIdx info)))
              else if negb isShiftOrMetaPressed then dispatch (SetSelections [])
                   else ret tt) s0) = Ok tt).
    { intros s0.
      destruct (isSegmentHit (performHitTest K c mouseDown)
                || isShapeHit (performHitTest K c mouseDown)) eqn:Fany.
      - specialize (Hsub eq_refl). unfold bind.
        destruct (findHitSubPath c _); [reflexivity | congruence].
      - destruct isShiftOrMetaPressed; reflexivity. }
    destruct (isFilled (activePathLayer c) && isSegmentHit (performHitTest K c mouseDown))
      eqn:Ffilled; [| apply Hrest].
    apply andb_prop in Ffilled. destruct Ffilled as [_ Fsegment].
    destruct (findHitSegment c _) eqn:E.
    + cbn. destruct (isSplitSegment L _); [reflexivity | apply Hrest].
    + apply Es in E. exfalso. apply Hsegment; assumption.
Qed.

Lemma numLt_spec (a b : Q) : numLt a b = true <-> (a < b)%Q.
Proof.
  unfold numLt. rewrite negb_true_iff. split.
  - intros Hle. apply Qnot_le_lt. intros H. apply Qle_bool_iff in H. congruence.
  - intros Hlt. destruct (Qle_bool b a) eqn:E; [| reflexivity].
    apply Qle_bool_iff in E. exfalso. exact (Qlt_not_le _ _ Hlt E).
Qed.

(** X8. [onMouseMove] never dispatches to the store: whatever the state
    and the point, its effects are hover updates and draws only, and when
    it returns the last of them is the redraw. *)
Theorem mouseMove_never_dispatches (s : State (K := K)) (mouseMove : Point L) :
  let out := onMouseMove mouseMove s in
  exists es,
    effects (snd out) = effects s ++ es
    /\ dispatched es = []
    /\ (fst out = Ok tt -> exists before, es = before ++ [Draw]).
Proof.
  destruct s as [h c hov es]. destruct h as [src idx proj drag lastp down].
  run_handler.
  assert (Hnil : es = es ++ []) by (symmetry; apply app_nil_r).
  assert (Hhover :
    forall h0 : Helper,
      let s0 := mkState h0 c hov es in
      let out := bind (checkForHovers mouseMove) (fun _ => draw) s0 in
      exists es',
        effects (snd out) = es ++ es' /\ dispatched es' = [] /\
        (fst out = Ok tt -> exists before, es' = before ++ [Draw])).
  { intros h0 s0 out. subst out.
    destruct (checkForHovers_quiet mouseMove s0) as (_ & es' & He & Hd).
    unfold bind, draw, emit.
    destruct (checkForHovers mouseMove s0) as [[[]|] s1]; cbn in *.
    - exists (es' ++ [Draw]). rewrite He, <- app_assoc, dispatched_app, Hd.
      repeat split. intros _. exists es'. reflexivity.
    - exists es'. repeat split; [exact He | exact Hd | discriminate]. }
  cbv [bind draw emit] in Hhover.
  destruct idx as [index|]; cbn.
  - destruct down as [down|]; cbn;
      [| exists []; repeat split; [exact Hnil | discriminate]].
    destruct (numLt (dragTriggerTouchSlop c) (distance L down mouseMove)); cbn.
    + exists [Draw]. repeat split. intros _. exists []. reflexivity.
    + destruct drag; cbn.
      * exists [Draw]. repeat split. intros _. exists []. reflexivity.
      * apply Hhover.
  - destruct drag; cbn.
    + exists []. repeat split; [exact Hnil | discriminate].
    + apply Hhover.
Qed.

(** X9. The drag trigger of [onMouseMove]. With a split point pending
    since a mouse down at [down], a move to [mouseMove] returns and
    redraws, and the drag is triggered afterwards exactly when it was
    already or when [dragTriggerTouchSlop] is strictly below the distance
    from [down] to [mouseMove]. When it is, the projection kept is the
    mouse point's projection restricted to the split point's sub-path;
    when it is not, the projection is left as it was. The pending split
    point and the mouse down location are kept, and the mouse location is
    the point of the move. *)
Theorem mouseMove_drag_trigger (s : State (K := K)) (mouseMove down : Point L)
    (index : Index) :
  currentDraggableSplitIndex (helper s) = Some index ->
  initialMouseDown (helper s) = Some down ->
  let out := onMouseMove mouseMove s in
  let slop := dragTriggerTouchSlop (component s) in
  fst out = Ok tt
  /\ effects (snd out) = effects s ++ [Draw]
  /\ (isDragTriggered (snd out) = true <->
      isDragTriggered_ (helper s) = true \/ (slop < distance L down mouseMove)%Q)
  /\ (isDragTriggered (snd out) = true ->
      getProjectionOntoPath (snd out)
      = projectOnto (component s) mouseMove (Some (subIdx index)))
  /\ (isDragTriggered (snd out) = false ->
      getProjectionOntoPath (snd out) = projectionOntoPath (helper s))
  /\ getDraggableSplitIndex (snd out) = Some index
  /\ initialMouseDown (helper (snd out)) = Some down
  /\ getLastKnownMouseLocation (snd out) = Some mouseMove.
Proof.
  destruct s as [h c hov es]. destruct h as [src idx proj drag lastp down0].
  cbn [helper component effects currentDraggableSplitIndex initialMouseDown
       isDragTriggered_ projectionOntoPath].
  intros -> ->.
  pose proof (numLt_spec (dragTriggerTouchSlop c) (distance L down mouseMove)) as Hlt.
  unfold isDragTriggered, getProjectionOntoPath, getDraggableSplitIndex,
    getLastKnownMouseLocation.
  run_handler.
  destruct (numLt (dragTriggerTouchSlop c) (distance L down mouseMove)); cbn.
  - repeat split; try reflexivity; try discriminate.
    intros _. right. apply Hlt. reflexivity.
  - destruct drag; cbn.
    + repeat split; try reflexivity; try discriminate. intros _. left. reflexivity.
    + unfold checkForHovers. run_handler. cbn.
      repeat split; try reflexivity; try discriminate.
      intros [H | H]; [discriminate | apply Hlt in H; discriminate].
Qed.

(** The end of [onMouseUp] after the effects [done] of its first part. *)
Ltac mouseUp_end mouseUp :=
  cbn [fst snd helper component hover effects actionSource];
  match goal with
  | |- context [checkForHovers mouseUp ?s0] =>
      let rest := fresh "rest" in
      let He := fresh "He" in
      let Hd := fresh "Hd" in
      destruct (mouseUp_ending mouseUp s0) as (_ & rest & He & Hd);
      exists rest; (split; [| exact Hd]);
      (etransitivity; [exact He |]);
      cbn [effects]; rewrite <- ?app_assoc; reflexivity
  end.

(** X10. A mouse up with no gesture under way (no drag triggered, no split
    point pending) dispatches nothing: its effects are the hover update of
    the point and the redraw. *)
Theorem mouseUp_idle_dispatches_nothing (s : State (K := K)) (mouseUp : Point L)
    (isShiftOrMetaPressed : bool) :
  isDragTriggered_ (helper s) = false ->
  currentDraggableSplitIndex (helper s) = None ->
  let out := onMouseUp mouseUp isShiftOrMetaPressed s in
  exists rest, effects (snd out) = effects s ++ rest /\ dispatched rest = [].
Proof.
  destruct s as [h c hov es]. destruct h as [src idx proj drag lastp down].
  cbn [helper effects isDragTriggered_ currentDraggableSplitIndex].
  intros -> ->. run_handler. mouseUp_end mouseUp.
Qed.

(** X11. A click on a split point released on nothing: with a split point
    pending and no drag triggered, a mouse up where the hit test reports
    no hit dispatches [SetSelections([])] and nothing else, with or without
    the shift or meta key (unlike a mouse down on nothing). *)
Theorem mouseUp_click_released_on_nothing (s : State (K := K)) (mouseUp : Point L)
    (isShiftOrMetaPressed : bool) (index : Index) :
  isDragTriggered_ (helper s) = false ->
  currentDraggableSplitIndex (helper s) = Some index ->
  isHit (performHitTest K (component s) mouseUp) = false ->
  let out := onMouseUp mouseUp isShiftOrMetaPressed s in
  exists rest,
    effects (snd out) = effects s ++ [Dispatch (SetSelections [])] ++ rest
    /\ dispatched rest = [].
Proof.
  destruct s as [h c hov es]. destruct h as [src idx proj drag lastp down].
  cbn [helper component effects isDragTriggered_ currentDraggableSplitIndex].
  intros -> -> Hmiss. run_handler. rewrite Hmiss. cbn [negb].
  mouseUp_end mouseUp.
Qed.

(** X12. A click on a split point: with a split point pending and no drag
    triggered, a mouse up on an end point dispatches one
    [TogglePointSelection], with the modifier flag of the mouse up, and
    nothing else. The point toggled is the one found under the mouse up
    (the last split point among its end point hits, else the last of
    them), not the pending one. *)
Theorem mouseUp_click_selects_point (s : State (K := K)) (mouseUp : Point L)
    (isShiftOrMetaPressed : bool) (index : Index) :
  let hitResult := performHitTest K (component s) mouseUp in
  isDragTriggered_ (helper s) = false ->
  currentDraggableSplitIndex (helper s) = Some index ->
  isHit hitResult = true ->
  isEndPointHit hitResult = true ->
  endPointHits hitResult <> [] ->
  let out := onMouseUp mouseUp isShiftOrMetaPressed s in
  exists hit rest,
    LastSplitOrLast (hitIsSplitPoint (component s)) (endPointHits hitResult) hit
    /\ effects (snd out)
       = effects s ++
         [Dispatch (TogglePointSelection (actionSource (helper s))
                      (subIdx hit) (cmdIdx hit) isShiftOrMetaPressed)] ++ rest
    /\ dispatched rest = [].
Proof.
  intros hitResult. subst hitResult.
  destruct s as [h c hov es]. destruct h as [src idx proj drag lastp down].
  cbn [helper component effects isDragTriggered_ currentDraggableSplitIndex
       actionSource].
  intros -> -> Hhit Hpoint Hne.
  destruct (proj1 (findHit_on_hits c) _ Hne) as (hit & Hlast & Hfind).
  exists hit. run_handler. rewrite Hhit, Hpoint, Hfind. cbn [negb].
  cbn [commandInfo ci_subIdx ci_cmdIdx].
  cbn [fst snd helper component hover effects actionSource].
  match goal with
  | |- context [checkForHovers mouseUp ?s0] =>
      destruct (mouseUp_ending mouseUp s0) as (_ & rest & He & Hd)
  end.
  exists rest. split; [exact Hlast | split; [| exact Hd]].
  etransitivity; [exact He |]. cbn [effects]. rewrite <- ?app_assoc. reflexivity.
Qed.

(** X13. A split point dropped on its own command: when the drag ends with
    a projection that has the dragged split point's indices, the split
    point is unsplit, the path without it is assigned to the layer, the
    mouse up point is projected again without restriction, and, when that
    projection lies on the split point's sub-path, the action dispatched
    after [SetSelections([])] carries the starting path with the split
    point unsplit and then split again at the new projection. *)
Theorem mouseUp_drop_on_same_command (s : State (K := K)) (mouseUp : Point L)
    (isShiftOrMetaPressed : bool)
    (projOntoPath tempProjOntoPath : ProjectionOntoPath (Projection L))
    (old : Index) :
  isDragTriggered_ (helper s) = true ->
  projectionOntoPath (helper s) = Some projOntoPath ->
  currentDraggableSplitIndex (helper s) = Some old ->
  proj_subIdx projOntoPath = subIdx old ->
  proj_cmdIdx projOntoPath = cmdIdx old ->
  projectOnto (unsplitLayer (component s) old) mouseUp None = Some tempProjOntoPath ->
  proj_subIdx tempProjOntoPath = subIdx old ->
  let out := onMouseUp mouseUp isShiftOrMetaPressed s in
  let startingPath := pathData (activePathLayer (component s)) in
  exists rest,
    effects (snd out)
    = effects s ++
      [SetHover None; Dispatch (SetSelections []);
       Dispatch
         (UpdateActivePathBlock (actionSource (helper s))
            (build L
               (splitCommand L
                  (unsplitCommand L (mutate L startingPath) (subIdx old) (cmdIdx old))
                  (proj_subIdx tempProjOntoPath) (proj_cmdIdx tempProjOntoPath)
                  (projection_t L (projection tempProjOntoPath)))))] ++ rest
    /\ dispatched rest = [].
Proof.
  destruct s as [h c hov es]. destruct h as [src idx proj drag lastp down].
  cbn [helper component effects isDragTriggered_ projectionOntoPath
       currentDraggableSplitIndex actionSource].
  intros -> -> -> Hsub Hcmd Htemp Hsame. run_handler.
  rewrite Hsub, Hcmd, Z.eqb_refl.
  destruct (Z.gtb_spec (cmdIdx old) (cmdIdx old)) as [Hgt | _]; [lia |].
  rewrite Z.ltb_irrefl.
  unfold unsplitLayer in Htemp. cbn [helper component hover effects fst snd].
  rewrite Htemp, Hsame, Z.eqb_refl.
  mouseUp_end mouseUp.
Qed.

(** X14. A drop without a projection raises: when the drag is triggered
    and the last move found no projection ([projectionOntoPath] is
    [undefined]), [onMouseUp] raises on reading it. Nothing is dispatched,
    drawn or assigned, and the gesture is not reset: apart from the mouse
    location the helper is left as it was, the drag still triggered. *)
Theorem mouseUp_without_projection_raises (s : State (K := K)) (mouseUp : Point L)
    (isShiftOrMetaPressed : bool) :
  isDragTriggered_ (helper s) = true ->
  projectionOntoPath (helper s) = None ->
  onMouseUp mouseUp isShiftOrMetaPressed s
  = (TypeError,
     mkState (set_lastKnownMouseLocation (Some mouseUp) (helper s))
       (component s) (hover s) (effects s)).
Proof.
  destruct s as [h c hov es]. destruct h as [src idx proj drag lastp down].
  cbn [helper component hover effects isDragTriggered_ projectionOntoPath].
  intros -> ->. reflexivity.
Qed.

(** X15. A drop on the split point's own command whose second projection
    is [undefined] raises after the layer has been changed: the path with
    the split point unsplit has been assigned to the layer, nothing is
    dispatched, and the gesture is not reset. *)
Theorem mouseUp_without_second_projection_raises (s : State (K := K))
    (mouseUp : Point L) (isShiftOrMetaPressed : bool)
    (projOntoPath : ProjectionOntoPath (Projection L)) (old : Index) :
  isDragTriggered_ (helper s) = true ->
  projectionOntoPath (helper s) = Some projOntoPath ->
  currentDraggableSplitIndex (helper s) = Some old ->
  proj_subIdx projOntoPath = subIdx old ->
  proj_cmdIdx projOntoPath = cmdIdx old ->
  projectOnto (unsplitLayer (component s) old) mouseUp None = None ->
  onMouseUp mouseUp isShiftOrMetaPressed s
  = (TypeError,
     mkState (set_lastKnownMouseLocation (Some mouseUp) (helper s))
       (unsplitLayer (component s) old) (hover s) (effects s)).
Proof.
  destruct s as [h c hov es]. destruct h as [src idx proj drag lastp down].
  cbn [helper component hover effects isDragTriggered_ projectionOntoPath
       currentDraggableSplitIndex].
  intros -> -> -> Hsub Hcmd Htemp. run_handler.
  rewrite Hsub, Hcmd, Z.eqb_refl.
  destruct (Z.gtb_spec (cmdIdx old) (cmdIdx old)) as [Hgt | _]; [lia |].
  rewrite Z.ltb_irrefl.
  unfold unsplitLayer in *. cbn [helper component hover effects fst snd].
  rewrite Htemp. reflexivity.
Qed.

(** X16. Segment hover. With no split point pending, a hit that is no end
    point hit but a segment hit on a filled layer, one of the segment hits
    being a split segment, sets a [Segment] hover at the last split
    segment among the hits. *)
Theorem hover_on_split_segment (s : State (K := K)) (mousePoint : Point L) :
  let hitResult := performHitTest K (component s) mousePoint in
  currentDraggableSplitIndex (helper s) = None ->
  isHit hitResult = true ->
  isEndPointHit hitResult = false ->
  isSegmentHit hitResult = true ->
  isFilled (activePathLayer (component s)) = true ->
  (exists hit, In hit (segmentHits hitResult) /\
               hitIsSplitSegment (component s) hit = true) ->
  exists hit,
    LastSplitOrLast (hitIsSplitSegment (component s)) (segmentHits hitResult) hit
    /\ hitIsSplitSegment (component s) hit = true
    /\ let segmentHover :=
         Some (mkHover HoverSegment (actionSource (helper s))
                 (subIdx hit) (Some (cmdIdx hit))) in
       fst (checkForHovers mousePoint s) = Ok tt
       /\ hover (snd (checkForHovers mousePoint s)) = segmentHover
       /\ effects (snd (checkForHovers mousePoint s))
          = effects s ++ [SetHover segmentHover].
Proof.
  intros hitResult Hidle Hhit Hpoint Hsegment Hfilled Hsome. subst hitResult.
  destruct (proj1 (proj2 (findHit_on_hits (component s)))
              (segmentHits (performHitTest K (component s) mousePoint)))
    as (hit & Hlast & Hfind).
  { destruct Hsome as (y & Hy & _). intros E. rewrite E in Hy. exact Hy. }
  pose proof (LastSplitOrLast_some_split _ _ _ _ Hsome Hlast) as Hsplit.
  exists hit. split; [exact Hlast | split; [exact Hsplit |]].
  destruct s as [h c hov es]. cbn [helper component hover effects] in *.
  unfold checkForHovers. run_handler.
  rewrite Hidle. run_handler. rewrite Hhit, Hpoint, Hsegment, Hfilled, Hfind. cbn.
  unfold hitIsSplitSegment in Hsplit. rewrite Hsplit. cbn. repeat split.
Qed.

(** X17. Sub-path hover on a stroked layer. With no split point pending, a
    hit that is no end point hit but a segment hit on a layer that is
    stroked and not filled sets a [SubPath] hover, without [cmdIdx], at
    the sub-path of the last split segment among the segment hits, else of
    the last segment hit. *)
Theorem hover_on_stroked_segment (s : State (K := K)) (mousePoint : Point L) :
  let hitResult := performHitTest K (component s) mousePoint in
  currentDraggableSplitIndex (helper s) = None ->
  isHit hitResult = true ->
  isEndPointHit hitResult = false ->
  isSegmentHit hitResult = true ->
  isFilled (activePathLayer (component s)) = false ->
  isStroked (activePathLayer (component s)) = true ->
  segmentHits hitResult <> [] ->
  exists hit,
    LastSplitOrLast (hitIsSplitSegment (component s)) (segmentHits hitResult) hit
    /\ let subPathHover :=
         Some (mkHover HoverSubPath (actionSource (helper s)) (subIdx hit) None) in
       fst (checkForHovers mousePoint s) = Ok tt
       /\ hover (snd (checkForHovers mousePoint s)) = subPathHover
       /\ effects (snd (checkForHovers mousePoint s))
          = effects s ++ [SetHover subPathHover].
Proof.
  intros hitResult Hidle Hhit Hpoint Hsegment Hfilled Hstroked Hne. subst hitResult.
  destruct (proj1 (proj2 (findHit_on_hits (component s))) _ Hne)
    as (hit & Hlast & Hfind).
  exists hit. split; [exact Hlast |].
  destruct s as [h c hov es]. cbn [helper component hover effects] in *.
  unfold checkForHovers. run_handler.
  rewrite Hidle. run_handler.
  rewrite Hhit, Hpoint, Hsegment, Hfilled, Hstroked, Hfind. cbn.
  repeat split.
Qed.

(** X18. Sub-path hover on the shape of a filled layer. With no split
    point pending, a hit that is no end point hit but a shape hit on a
    filled layer sets a [SubPath] hover at the last split sub-path among
    the shape hits, else at the last shape hit, provided no segment hover
    comes first (no segment is hit, or none of the segment hits is a split
    segment). *)
Theorem hover_on_shape (s : State (K := K)) (mousePoint : Point L) :
  let hitResult := performHitTest K (component s) mousePoint in
  currentDraggableSplitIndex (helper s) = None ->
  isHit hitResult = true ->
  isEndPointHit hitResult = false ->
  isShapeHit hitResult = true ->
  isFilled (activePathLayer (component s)) = true ->
  shapeHits hitResult <> [] ->
  (isSegmentHit hitResult = false
   \/ (segmentHits hitResult <> [] /\
       forall hit, In hit (segmentHits hitResult) ->
                   hitIsSplitSegment (component s) hit = false)) ->
  exists sub,
    LastSplitOrLast (hitIsSplitSubPath (component s)) (shapeHits hitResult) sub
    /\ let subPathHover :=
         Some (mkHover HoverSubPath (actionSource (helper s)) sub None) in
       fst (checkForHovers mousePoint s) = Ok tt
       /\ hover (snd (checkForHovers mousePoint s)) = subPathHover
       /\ effects (snd (checkForHovers mousePoint s))
          = effects s ++ [SetHover subPathHover].
Proof.
  intros hitResult Hidle Hhit Hpoint Hshape Hfilled Hne Hsegment. subst hitResult.
  destruct (proj2 (proj2 (findHit_on_hits (component s))) _ Hne)
    as (sub & Hlast & Hfind).
  exists sub. split; [exact Hlast |].
  destruct s as [h c hov es]. cbn [helper component hover effects] in *.
  unfold checkForHovers. run_handler. rewrite Hidle. run_handler.
  rewrite Hhit, Hpoint, Hshape, Hfilled. cbn [negb andb].
  destruct Hsegment as [Hnone | (Hsome & Hplain)].
  - rewrite Hnone, Hfind. cbn. repeat split.
  - destruct (isSegmentHit (performHitTest K c mousePoint));
      [| rewrite Hfind; cbn; repeat split].
    destruct (proj1 (proj2 (findHit_on_hits c)) _ Hsome) as (hit & Hlast' & Hfind').
    rewrite Hfind'. cbn.
    destruct (LastSplitOrLast_none_split _ _ _ _ Hplain Hlast') as (before & Hbefore).
    assert (Hhit' : hitIsSplitSegment c hit = false).
    { apply Hplain. rewrite Hbefore. apply in_elt. }
    unfold hitIsSplitSegment in Hhit'. rewrite Hhit', Hfind. cbn. repeat split.
Qed.

(** X19. A hit that sets no hover leaves the hover as it was. With no
    split point pending and a hit that is no end point hit,
    [checkForHovers] returns without calling the hover service when the
    layer is not filled and either no segment is hit or the layer is not
    stroked (a shape hit on a layer that is not filled, say): the hover set
    by an earlier event stays. *)
Theorem hover_left_as_it_was (s : State (K := K)) (mousePoint : Point L) :
  let hitResult := performHitTest K (component s) mousePoint in
  currentDraggableSplitIndex (helper s) = None ->
  isHit hitResult = true ->
  isEndPointHit hitResult = false ->
  isFilled (activePathLayer (component s)) = false ->
  (isSegmentHit hitResult = false \/ isStroked (activePathLayer (component s)) = false) ->
  checkForHovers mousePoint s = (Ok tt, s).
Proof.
  intros hitResult Hidle Hhit Hpoint Hfilled Hor. subst hitResult.
  destruct s as [h c hov es]. cbn [helper component hover effects] in *.
  unfold checkForHovers. run_handler. rewrite Hidle. run_handler.
  rewrite Hhit, Hpoint, Hfilled, andb_false_r. cbn [negb].
  destruct Hor as [Hsegment | Hstroked].
  - rewrite Hsegment. reflexivity.
  - rewrite Hstroked. destruct (isSegmentHit _); reflexivity.
Qed.

(** [checkForHovers] returns when the raised flags come with hits. *)
Lemma checkForHovers_returns (s : State (K := K)) (mousePoint : Point L) :
  flagsHaveHits (performHitTest K (component s) mousePoint) ->
  fst (checkForHovers mousePoint s) = Ok tt.
Proof.
  intros (Hpoint & Hsegment & Hshape).
  destruct (findHit_none_nil (component s)) as (Ep & Es & Esp).
  destruct s as [h c hov es]. cbn [component] in *.
  unfold checkForHovers. run_handler.
  destruct (currentDraggableSplitIndex h); [reflexivity |]. run_handler.
  destruct (performHitTest K c mousePoint) as [hit pt seg shape phits shits shhits].
  cbn [isHit isEndPointHit isSegmentHit isShapeHit endPointHits segmentHits shapeHits] in *.
  assert (Fp : pt = true -> findHitPoint c phits <> None).
  { intros F E. apply Ep in E. exact (Hpoint F E). }
  assert (Fs : seg = true -> findHitSegment c shits <> None).
  { intros F E. apply Es in E. exact (Hsegment F E). }
  assert (Fsh : shape = true -> findHitSubPath c shhits <> None).
  { intros F E. apply Esp in E. exact (Hshape F E). }
  clear Hpoint Hsegment Hshape Ep Es Esp.
  destruct hit; cbn [negb]; [| reflexivity].
  destruct pt.
  { specialize (Fp eq_refl). destruct (findHitPoint c phits); [reflexivity | congruence]. }
  destruct shape, seg; cbn [andb];
    try specialize (Fs eq_refl); try specialize (Fsh eq_refl);
    destruct (isFilled (activePathLayer c)), (isStroked (activePathLayer c));
    cbn [andb];
    repeat match goal with
           | |- context [match ?o with Some _ => _ | None => _ end] =>
               destruct o; [cbn | congruence]
           | |- context [if ?b then _ else _] => destruct b; cbn
           end;
    reflexivity.
Qed.

(** X20. In every state the helper reaches, [onMouseMove] returns whenever
    the hit result at the mouse point has hits behind its raised flags:
    the drag branch cannot raise, and the hover branch raises on an empty
    list of hits only. *)
Theorem mouseMove_returns (s : State (K := K)) (mouseMove : Point L) :
  reachable s ->
  flagsHaveHits (performHitTest K (component s) mouseMove) ->
  fst (onMouseMove mouseMove s) = Ok tt.
Proof.
  intros Hreach Hflags.
  destruct (reachable_dragHasTarget s Hreach) as [Htarget Hdown].
  destruct s as [h c hov es]. destruct h as [src idx proj drag lastp down].
  cbn [helper component isDragTriggered_ currentDraggableSplitIndex initialMouseDown] in *.
  assert (Hhover :
    forall h0 : Helper,
      fst (bind (checkForHovers mouseMove) (fun _ => draw) (mkState h0 c hov es)) = Ok tt).
  { intros h0.
    pose proof (checkForHovers_returns (mkState h0 c hov es) mouseMove Hflags) as Hok.
    unfold bind. destruct (checkForHovers mouseMove _) as [[[]|] s1];
      [reflexivity | discriminate]. }
  cbv [bind draw emit] in Hhover.
  run_handler.
  destruct idx as [index|]; cbn.
  - destruct down as [down|]; [| exfalso; apply Hdown; [discriminate | reflexivity]].
    cbn. destruct (numLt (dragTriggerTouchSlop c) (distance L down mouseMove)); cbn;
      [reflexivity |].
    destruct drag; cbn; [reflexivity | apply Hhover].
  - destruct drag; [exfalso; apply Htarget; reflexivity |]. cbn. apply Hhover.
Qed.

(** X21. A click on a split point selects it on release. From a state with
    no drag triggered, a mouse down on a split point followed by a mouse up
    at the same point, the hit test still reporting the end point,
    dispatches over the two calls exactly one action: the
    [TogglePointSelection] of the split point recorded by the mouse down,
    with the modifier flag of the mouse up. *)
Theorem click_on_split_point (s : State (K := K)) (p : Point L)
    (shiftDown shiftUp : bool) (info : CommandInfo) :
  let hitResult := performHitTest K (component s) p in
  isDragTriggered_ (helper s) = false ->
  isHit hitResult = true ->
  isEndPointHit hitResult = true ->
  findHitPoint (component s) (endPointHits hitResult) = Some info ->
  isSplitPoint L (ci_cmd info) = true ->
  let afterDown := snd (onMouseDown p shiftDown s) in
  let out := onMouseUp p shiftUp afterDown in
  getDraggableSplitIndex afterDown = Some (mkIndex (ci_subIdx info) (ci_cmdIdx info))
  /\ exists rest,
       effects (snd out)
       = effects s ++
         [Dispatch (TogglePointSelection (actionSource (helper s))
                      (ci_subIdx info) (ci_cmdIdx info) shiftUp)] ++ rest
       /\ dispatched rest = [].
Proof.
  intros hitResult. subst hitResult.
  destruct s as [h c hov es]. destruct h as [src idx proj drag lastp down].
  cbn [helper component effects isDragTriggered_ actionSource].
  intros -> Hhit Hpoint Hfind Hsplit.
  unfold getDraggableSplitIndex. run_handler.
  rewrite Hpoint, Hfind. cbn. rewrite Hsplit. cbn.
  split; [reflexivity |].
  rewrite Hhit, Hpoint, Hfind. cbn [negb].
  mouseUp_end p.
Qed.

(** X22. Starting a drag. From a state with no drag triggered, a mouse
    down on a split point followed by a move farther than
    [dragTriggerTouchSlop] from the mouse down triggers the drag of that
    split point: the helper holds the split point's indices and the
    projection of the mouse restricted to the split point's sub-path,
    nothing has been dispatched, and the canvas has been redrawn once. *)
Theorem drag_starts_beyond_slop (s : State (K := K)) (mouseDown mouseMove : Point L)
    (isShiftOrMetaPressed : bool) (info : CommandInfo) :
  let hitResult := performHitTest K (component s) mouseDown in
  isEndPointHit hitResult = true ->
  findHitPoint (component s) (endPointHits hitResult) = Some info ->
  isSplitPoint L (ci_cmd info) = true ->
  (dragTriggerTouchSlop (component s) < distance L mouseDown mouseMove)%Q ->
  let out := onMouseMove mouseMove (snd (onMouseDown mouseDown isShiftOrMetaPressed s)) in
  fst out = Ok tt
  /\ isDragTriggered (snd out) = true
  /\ getDraggableSplitIndex (snd out)
     = Some (mkIndex (ci_subIdx info) (ci_cmdIdx info))
  /\ getProjectionOntoPath (snd out)
     = projectOnto (component s) mouseMove (Some (ci_subIdx info))
  /\ effects (snd out) = effects s ++ [Draw].
Proof.
  intros hitResult. subst hitResult.
  destruct s as [h c hov es]. destruct h as [src idx proj drag lastp down].
  cbn [helper component effects].
  intros Hpoint Hfind Hsplit Hfar. apply numLt_spec in Hfar.
  unfold isDragTriggered, getDraggableSplitIndex, getProjectionOntoPath.
  run_handler. rewrite Hpoint, Hfind. cbn. rewrite Hsplit. cbn.
  rewrite Hfar. cbn. repeat split.
Qed.

(** X23. Dragging a split point to another command of its sub-path, as one
    gesture. A mouse down on a split point, a move beyond the slop whose
    restricted projection lies on another command of the split point's
    sub-path, and a mouse up: over the three calls the store receives
    [SetSelections([])] and then one [UpdateActivePathBlock] that carries
    the layer's path with the split point moved to the projection (the
    path is the one the layer holds at the mouse up, after the directive
    has reacted to the redraw of the move). *)
Theorem drag_and_drop (s : State (K := K)) (mouseDown mouseMove mouseUp : Point L)
    (shiftDown shiftUp : bool) (info : CommandInfo)
    (projOntoPath : ProjectionOntoPath (Projection L)) :
  let hitResult := performHitTest K (component s) mouseDown in
  isEndPointHit hitResult = true ->
  findHitPoint (component s) (endPointHits hitResult) = Some info ->
  isSplitPoint L (ci_cmd info) = true ->
  (dragTriggerTouchSlop (component s) < distance L mouseDown mouseMove)%Q ->
  projectOnto (component s) mouseMove (Some (ci_subIdx info)) = Some projOntoPath ->
  proj_subIdx projOntoPath = ci_subIdx info ->
  proj_cmdIdx projOntoPath <> ci_cmdIdx info ->
  let afterMove := snd (onMouseMove mouseMove (snd (onMouseDown mouseDown shiftDown s))) in
  let out := onMouseUp mouseUp shiftUp afterMove in
  let startingPath := pathData (activePathLayer (react K Draw (component s))) in
  exists rest,
    effects (snd out)
    = effects s ++
      [Draw; SetHover None; Dispatch (SetSelections []);
       Dispatch (UpdateActivePathBlock (actionSource (helper s))
                   (movedSplit startingPath
                      (mkIndex (ci_subIdx info) (ci_cmdIdx info)) projOntoPath))]
      ++ rest
    /\ dispatched rest = [].
Proof.
  intros hitResult. subst hitResult.
  destruct s as [h c hov es]. destruct h as [src idx proj drag lastp down].
  cbn [helper component effects actionSource].
  intros Hpoint Hfind Hsplit Hfar Hproj Hsub Hcmd. apply numLt_spec in Hfar.
  unfold movedSplit. run_handler. rewrite Hpoint, Hfind. cbn. rewrite Hsplit. cbn.
  rewrite Hfar. cbn. rewrite Hproj. cbn. rewrite Hsub, Z.eqb_refl.
  cbn [subIdx cmdIdx].
  destruct (Z.gtb_spec (proj_cmdIdx projOntoPath) (ci_cmdIdx info)) as [Hgt | Hle];
    [| destruct (Z.ltb_spec (proj_cmdIdx projOntoPath) (ci_cmdIdx info)) as [Hlt | Hge];
       [| lia]];
    mouseUp_end mouseUp.
Qed.

End Coverage.

(** C5 on the small instance: a click left of the path, without and with
    the shift key. *)
Lemma C5_witness :
  dispatched (effects (snd (onMouseDown (K := Toy.canvas) (-1)%Z false
                              (Toy.toyState (newHelper (L := Toy.lib) tt) []))))
    = [SetSelections []]
  /\ dispatched (effects (snd (onMouseDown (K := Toy.canvas) (-1)%Z true
                                 (Toy.toyState (newHelper (L := Toy.lib) tt) []))))
       = [].
Proof.
  split.
  - rewrite (proj2 (C5_mouse_down_on_nothing
                      (Toy.toyState (newHelper (L := Toy.lib) tt) []) (-1)%Z false
                      eq_refl eq_refl eq_refl)).
    reflexivity.
  - rewrite (proj2 (C5_mouse_down_on_nothing
                      (Toy.toyState (newHelper (L := Toy.lib) tt) []) (-1)%Z true
                      eq_refl eq_refl eq_refl)).
    reflexivity.
Defined.

(** C3 on three hits of the small instance, the second of them split: the
    three searches return the indices of the hit they pick, here [(0, 3)],
    [(0, 3)] and sub-path 0. *)
Lemma C3_witness :
  let c := Toy.toyComponent [mkIndex 0 3] in
  let hits := [mkIndex 0 1; mkIndex 0 3; mkIndex 0 5] in
  (exists hit,
      (subIdx hit = 0 /\ cmdIdx hit = 3)%Z
      /\ findHitPoint (K := Toy.canvas) c hits
         = Some (mkCommandInfo (L := Toy.lib) (subIdx hit) (cmdIdx hit) true))
  /\ (exists hit,
         (subIdx hit = 0 /\ cmdIdx hit = 3)%Z
         /\ findHitSegment (K := Toy.canvas) c hits
            = Some (mkCommandInfo (L := Toy.lib) (subIdx hit) (cmdIdx hit) true))
  /\ (exists sub,
         sub = 0%Z
         /\ findHitSubPath (K := Toy.canvas) c [1; 0; 2]%Z
            = Some (mkSubPathInfo (L := Toy.lib) sub true)).
Proof.
  intros c hits.
  destruct (C3_hit_disambiguation (K := Toy.canvas) c) as (Hp & Hs & Hsp).
  split; [| split].
  - destruct (Hp hits) as (hit & _ & E); [discriminate |].
    exists hit. injection E as Esub Ecmd Esplit.
    split; [split; symmetry; assumption |].
    rewrite <- Esub, <- Ecmd. reflexivity.
  - destruct (Hs hits) as (hit & _ & E); [discriminate |].
    exists hit. injection E as Esub Ecmd Esplit.
    split; [split; symmetry; assumption |].
    rewrite <- Esub, <- Ecmd. reflexivity.
  - destruct (Hsp [1; 0; 2]%Z) as (sub & _ & E); [discriminate |].
    exists sub. injection E as Esub Esplit.
    split; [symmetry; assumption |].
    rewrite <- Esub. reflexivity.
Defined.

(** C6 on the small instance: a move onto nothing, a move onto the end
    point [(0, 5)], and a move while the split point [(0, 3)] is pending. *)
Lemma C6_witness :
  hover (snd (onMouseMove (K := Toy.canvas) (-1)%Z
                (Toy.toyState (newHelper (L := Toy.lib) tt) []))) = None
  /\ (exists hit,
         LastSplitOrLast
           (hitIsSplitPoint (K := Toy.canvas) (Toy.toyComponent [])) [mkIndex 0 5] hit /\
         hover (snd (onMouseMove (K := Toy.canvas) 5%Z
                       (Toy.toyState (newHelper (L := Toy.lib) tt) [])))
           = Some (mkHover (L := Toy.lib) HoverPoint tt (subIdx hit) (Some (cmdIdx hit))))
  /\ hover (snd (onMouseMove (K := Toy.canvas) 50%Z
                   (Toy.toyState (Toy.dragging 0 7) [mkIndex 0 3]))) = None.
Proof.
  split; [| split].
  - destruct (C6_hover_tracking (Toy.toyState (newHelper (L := Toy.lib) tt) []) (-1)%Z)
      as (Hmiss & _ & _).
    destruct (Hmiss eq_refl eq_refl eq_refl) as (_ & Hhover & _). exact Hhover.
  - destruct (C6_hover_tracking (Toy.toyState (newHelper (L := Toy.lib) tt) []) 5%Z)
      as (_ & Hpoint & _).
    destruct (Hpoint eq_refl eq_refl eq_refl eq_refl) as (hit & Hlast & _ & Hhover & _).
    + discriminate.
    + exists hit. split; [exact Hlast | exact Hhover].
  - destruct (C6_hover_tracking (Toy.toyState (Toy.dragging 0 7) [mkIndex 0 3]) 50%Z)
      as (_ & _ & Hpending).
    destruct Hpending as (Hhover & _).
    + discriminate.
    + exact Hhover.
Defined.

(** C1 on the small instance: the split point [(0, 3)] is dropped on
    command 7 of its sub-path. *)
Lemma C1_witness :
  exists rest,
    effects (snd (onMouseUp (K := Toy.canvas) 40%Z false
                    (Toy.toyState (Toy.dragging 0 7) [mkIndex 0 3])))
      = [] ++ [SetHover None; Dispatch (SetSelections []);
               Dispatch (UpdateActivePathBlock (L := Toy.lib) tt [mkIndex 0 7])] ++ rest
    /\ dispatched rest = [].
Proof.
  refine (C1_drag_to_other_command
            (Toy.toyState (Toy.dragging 0 7) [mkIndex 0 3]) 40%Z false
            (mkProjectionOntoPath 0 7 (1 # 2)) (mkIndex 0 3)
            eq_refl eq_refl eq_refl eq_refl _).
  cbn. discriminate.
Defined.


(** C10 on the small instance: the drop of a dragged split point. *)
Lemma C10_witness :
  gestureCleared (snd (onMouseUp (K := Toy.canvas) 40%Z false
                         (Toy.toyState (Toy.dragging 0 7) [mkIndex 0 3]))).
Proof.
  apply (proj1 (C10_gesture_cleared
                  (Toy.toyState (Toy.dragging 0 7) [mkIndex 0 3]) 40%Z false)).
  vm_compute. reflexivity.
Defined.

(** C9 on the small instance: a mouse down on the split point [(0, 3)]
    followed by a move of 37 units triggers the drag; the next move
    returns. *)
Lemma C9_witness :
  let s0 := Toy.toyState (newHelper (L := Toy.lib) tt) [mkIndex 0 3] in
  let s1 := snd (handle (K := Toy.canvas) (MouseDown (L := Toy.lib) 3%Z false) s0) in
  let s2 := snd (handle (K := Toy.canvas) (MouseMove (L := Toy.lib) 40%Z) s1) in
  currentDraggableSplitIndex (helper s2) <> None
  /\ fst (onMouseMove (K := Toy.canvas) 50%Z s2) = Ok tt.
Proof.
  intros s0 s1 s2.
  assert (Hreach : reachable s2).
  { apply reachable_event. apply reachable_event. apply reachable_new. }
  destruct (C9_drag_has_target s2 Hreach) as (Htarget & Hmove).
  split.
  - apply Htarget. reflexivity.
  - apply Hmove. reflexivity.
Defined.

Lemma toy_sameQueries : SameQueries (K := Toy.canvas) Toy.sameVisible.
Proof.
  constructor; unfold Toy.sameVisible;
    intros [v1 l1 s1 hd1] [v2 l2 s2 hd2]; cbn; intros;
    repeat match goal with
           | H : _ /\ _ |- _ => destruct H
           end;
    subst; repeat split.
Qed.

(** C8 on the small instance: the same drop handled against two directives
    that differ in their hidden part, from different hovers and store
    logs. *)
Lemma C8_witness :
  let ev := MouseUp (L := Toy.lib) 40%Z false in
  let out1 :=
    handle (K := Toy.canvas) ev
      (mkState (K := Toy.canvas) (Toy.dragging 0 7)
         (Toy.toyComponentAt 0 [mkIndex 0 3]) None []) in
  let out2 :=
    handle (K := Toy.canvas) ev
      (mkState (K := Toy.canvas) (Toy.dragging 0 7)
         (Toy.toyComponentAt 5 [mkIndex 0 3])
         (Some (mkHover (L := Toy.lib) HoverSubPath tt 1 None)) [Draw]) in
  fst out1 = fst out2
  /\ helper (snd out1) = helper (snd out2)
  /\ (exists es, effects (snd out1) = [] ++ es /\ effects (snd out2) = [Draw] ++ es)
  /\ Toy.sameVisible (component (snd out1)) (component (snd out2)).
Proof.
  apply (C8_handlers_deterministic (K := Toy.canvas)
           Toy.sameVisible toy_sameQueries [] [Draw]).
  repeat split.
Defined.


(** *** The further properties on the small instance *)

Local Abbreviation idle := (newHelper (L := Toy.lib) tt).

Lemma findHit_undefined_iff_empty_witness :
  findHitPoint (K := Toy.canvas) (Toy.toyComponent []) [] = None.
Proof.
  apply (proj1 (findHit_undefined_iff_empty (K := Toy.canvas) (Toy.toyComponent []))).
  reflexivity.
Defined.

Lemma mouseDown_on_split_point_witness :
  exists hit,
    onMouseDown (K := Toy.canvas) 3%Z false (Toy.toyState idle [mkIndex 0 3])
    = (Ok tt,
       mkState (K := Toy.canvas)
         (mkHelper (L := Toy.lib) tt (Some (mkIndex (subIdx hit) (cmdIdx hit)))
            None false (Some 3%Z) (Some 3%Z))
         (Toy.toyComponent [mkIndex 0 3]) None []).
Proof.
  destruct (mouseDown_on_split_point (K := Toy.canvas)
              (Toy.toyState idle [mkIndex 0 3]) 3%Z false eq_refl)
    as (hit & _ & _ & E).
  - exists (mkIndex 0 3). split; [left; reflexivity | reflexivity].
  - exists hit. exact E.
Defined.

Lemma mouseDown_on_plain_point_witness :
  exists before hit,
    [mkIndex 0 5] = before ++ [hit]
    /\ effects (snd (onMouseDown (K := Toy.canvas) 5%Z true
                       (Toy.toyState idle [mkIndex 0 3])))
       = [] ++ [Dispatch (TogglePointSelection (L := Toy.lib) tt
                            (subIdx hit) (cmdIdx hit) true)].
Proof.
  destruct (mouseDown_on_plain_point (K := Toy.canvas)
              (Toy.toyState idle [mkIndex 0 3]) 5%Z true eq_refl)
    as (before & hit & Hlast & _ & He & _).
  - discriminate.
  - intros hit [<- | []]. reflexivity.
  - exists before, hit. split; [exact Hlast | exact He].
Defined.

Lemma mouseDown_on_split_segment_witness :
  exists hit,
    effects (snd (onMouseDown (K := Toy.canvas2) 203%Z false
                    (Toy.toyState2 idle true false [mkIndex 0 3])))
    = [] ++ [Dispatch (ToggleSegmentSelections (L := Toy.lib) tt
                         [mkIndex (subIdx hit) (cmdIdx hit)])].
Proof.
  destruct (mouseDown_on_split_segment (K := Toy.canvas2)
              (Toy.toyState2 idle true false [mkIndex 0 3]) 203%Z false
              eq_refl eq_refl eq_refl)
    as (hit & _ & _ & _ & He).
  - exists (mkIndex 0 3). split; [left; reflexivity | reflexivity].
  - exists hit. exact He.
Defined.

Lemma mouseDown_on_sub_path_witness :
  exists sub,
    effects (snd (onMouseDown (K := Toy.canvas2) 150%Z false
                    (Toy.toyState2 idle true false [mkIndex 0 3])))
    = [] ++ [Dispatch (ToggleSubPathSelection (L := Toy.lib) tt sub)].
Proof.
  destruct (mouseDown_on_sub_path (K := Toy.canvas2)
              (Toy.toyState2 idle true false [mkIndex 0 3]) 150%Z false
              eq_refl eq_refl)
    as (sub & _ & _ & He).
  - discriminate.
  - right. left. reflexivity.
  - exists sub. exact He.
Defined.

Lemma mouseDown_returns_witness :
  fst (onMouseDown (K := Toy.canvas) 5%Z false (Toy.toyState idle [mkIndex 0 3]))
  = Ok tt.
Proof.
  apply (mouseDown_returns (K := Toy.canvas)).
  repeat split; intros; discriminate.
Defined.

Lemma mouseMove_never_dispatches_witness :
  exists es,
    effects (snd (onMouseMove (K := Toy.canvas) 5%Z (Toy.toyState idle [])))
    = [] ++ es
    /\ dispatched es = []
    /\ exists before, es = before ++ [Draw].
Proof.
  destruct (mouseMove_never_dispatches (K := Toy.canvas) (Toy.toyState idle []) 5%Z)
    as (es & He & Hd & Hdraw).
  exists es. split; [exact He | split; [exact Hd | apply Hdraw; reflexivity]].
Defined.

Lemma mouseMove_drag_trigger_witness :
  let out := onMouseMove (K := Toy.canvas) 40%Z (Toy.toyState Toy.pending [mkIndex 0 3]) in
  isDragTriggered (snd out) = true
  /\ getProjectionOntoPath (snd out)
     = projectOnto (K := Toy.canvas) (Toy.toyComponent [mkIndex 0 3]) 40%Z (Some 0%Z).
Proof.
  destruct (mouseMove_drag_trigger (K := Toy.canvas)
              (Toy.toyState Toy.pending [mkIndex 0 3]) 40%Z 3%Z (mkIndex 0 3)
              eq_refl eq_refl)
    as (_ & _ & Hiff & Hproj & _).
  assert (Hdrag : isDragTriggered
                    (snd (onMouseMove (K := Toy.canvas) 40%Z
                            (Toy.toyState Toy.pending [mkIndex 0 3]))) = true).
  { apply Hiff. right. reflexivity. }
  split; [exact Hdrag | exact (Hproj Hdrag)].
Defined.

Lemma mouseUp_idle_dispatches_nothing_witness :
  exists rest,
    effects (snd (onMouseUp (K := Toy.canvas) 5%Z false (Toy.toyState idle [])))
    = [] ++ rest
    /\ dispatched rest = [].
Proof.
  exact (mouseUp_idle_dispatches_nothing (K := Toy.canvas)
           (Toy.toyState idle []) 5%Z false eq_refl eq_refl).
Defined.

Lemma mouseUp_click_released_on_nothing_witness :
  exists rest,
    effects (snd (onMouseUp (K := Toy.canvas) (-1)%Z true
                    (Toy.toyState Toy.pending [mkIndex 0 3])))
    = [] ++ [Dispatch (SetSelections [])] ++ rest
    /\ dispatched rest = [].
Proof.
  exact (mouseUp_click_released_on_nothing (K := Toy.canvas)
           (Toy.toyState Toy.pending [mkIndex 0 3]) (-1)%Z true (mkIndex 0 3)
           eq_refl eq_refl eq_refl).
Defined.

Lemma mouseUp_click_selects_point_witness :
  exists hit rest,
    LastSplitOrLast
      (hitIsSplitPoint (K := Toy.canvas) (Toy.toyComponent [mkIndex 0 3]))
      [mkIndex 0 5] hit
    /\ effects (snd (onMouseUp (K := Toy.canvas) 5%Z true
                       (Toy.toyState Toy.pending [mkIndex 0 3])))
       = [] ++ [Dispatch (TogglePointSelection (L := Toy.lib) tt
                            (subIdx hit) (cmdIdx hit) true)] ++ rest
    /\ dispatched rest = [].
Proof.
  refine (mouseUp_click_selects_point (K := Toy.canvas)
            (Toy.toyState Toy.pending [mkIndex 0 3]) 5%Z true (mkIndex 0 3)
            eq_refl eq_refl eq_refl eq_refl _).
  cbn. discriminate.
Defined.

Lemma mouseUp_drop_on_same_command_witness :
  exists rest,
    effects (snd (onMouseUp (K := Toy.canvas) 50%Z false
                    (Toy.toyState (Toy.dragging 0 3) [mkIndex 0 3])))
    = [] ++ [SetHover None; Dispatch (SetSelections []);
             Dispatch (UpdateActivePathBlock (L := Toy.lib) tt [mkIndex 0 50])] ++ rest
    /\ dispatched rest = [].
Proof.
  exact (mouseUp_drop_on_same_command (K := Toy.canvas)
           (Toy.toyState (Toy.dragging 0 3) [mkIndex 0 3]) 50%Z false
           (mkProjectionOntoPath 0 3 (1 # 2))
           (mkProjectionOntoPath 0 50 (inject_Z 50)) (mkIndex 0 3)
           eq_refl eq_refl eq_refl eq_refl eq_refl eq_refl eq_refl).
Defined.

(** A drag whose last move found no projection. *)
Local Abbreviation dragWithoutProjection :=
  (mkHelper (L := Toy.lib) tt (Some (mkIndex 0 3)) None true (Some (-5)%Z) (Some 3%Z)).

Lemma mouseUp_without_projection_raises_witness :
  fst (onMouseUp (K := Toy.canvas) (-5)%Z false
         (Toy.toyState dragWithoutProjection [mkIndex 0 3])) = TypeError
  /\ isDragTriggered (snd (onMouseUp (K := Toy.canvas) (-5)%Z false
                             (Toy.toyState dragWithoutProjection [mkIndex 0 3]))) = true.
Proof.
  rewrite (mouseUp_without_projection_raises (K := Toy.canvas)
             (Toy.toyState dragWithoutProjection [mkIndex 0 3]) (-5)%Z false
             eq_refl eq_refl).
  split; reflexivity.
Defined.

Lemma mouseUp_without_second_projection_raises_witness :
  let out := onMouseUp (K := Toy.canvas) (-5)%Z false
               (Toy.toyState (Toy.dragging 0 3) [mkIndex 0 3]) in
  fst out = TypeError
  /\ pathData (activePathLayer (component (snd out))) = []
  /\ effects (snd out) = [].
Proof.
  cbv zeta.
  rewrite (mouseUp_without_second_projection_raises (K := Toy.canvas)
             (Toy.toyState (Toy.dragging 0 3) [mkIndex 0 3]) (-5)%Z false
             (mkProjectionOntoPath 0 3 (1 # 2)) (mkIndex 0 3)
             eq_refl eq_refl eq_refl eq_refl eq_refl eq_refl).
  repeat split.
Defined.

Lemma hover_on_split_segment_witness :
  exists hit,
    hover (snd (checkForHovers (K := Toy.canvas2) 203%Z
                  (Toy.toyState2 idle true false [mkIndex 0 3])))
    = Some (mkHover (L := Toy.lib) HoverSegment tt (subIdx hit) (Some (cmdIdx hit))).
Proof.
  destruct (hover_on_split_segment (K := Toy.canvas2)
              (Toy.toyState2 idle true false [mkIndex 0 3]) 203%Z
              eq_refl eq_refl eq_refl eq_refl eq_refl)
    as (hit & _ & _ & _ & Hhover & _).
  - exists (mkIndex 0 3). split; [left; reflexivity | reflexivity].
  - exists hit. exact Hhover.
Defined.

Lemma hover_on_stroked_segment_witness :
  exists hit,
    hover (snd (checkForHovers (K := Toy.canvas2) 203%Z
                  (Toy.toyState2 idle false true [mkIndex 0 3])))
    = Some (mkHover (L := Toy.lib) HoverSubPath tt (subIdx hit) None).
Proof.
  destruct (hover_on_stroked_segment (K := Toy.canvas2)
              (Toy.toyState2 idle false true [mkIndex 0 3]) 203%Z
              eq_refl eq_refl eq_refl eq_refl eq_refl eq_refl)
    as (hit & _ & _ & Hhover & _).
  - discriminate.
  - exists hit. exact Hhover.
Defined.

Lemma hover_on_shape_witness :
  exists sub,
    hover (snd (checkForHovers (K := Toy.canvas2) 150%Z
                  (Toy.toyState2 idle true false [mkIndex 0 3])))
    = Some (mkHover (L := Toy.lib) HoverSubPath tt sub None).
Proof.
  destruct (hover_on_shape (K := Toy.canvas2)
              (Toy.toyState2 idle true false [mkIndex 0 3]) 150%Z
              eq_refl eq_refl eq_refl eq_refl eq_refl)
    as (sub & _ & _ & Hhover & _).
  - discriminate.
  - left. reflexivity.
  - exists sub. exact Hhover.
Defined.

Lemma hover_left_as_it_was_witness :
  checkForHovers (K := Toy.canvas2) 150%Z
    (Toy.toyState2 idle false true [mkIndex 0 3])
  = (Ok tt, Toy.toyState2 idle false true [mkIndex 0 3]).
Proof.
  apply (hover_left_as_it_was (K := Toy.canvas2)
           (Toy.toyState2 idle false true [mkIndex 0 3]) 150%Z
           eq_refl eq_refl eq_refl eq_refl).
  left. reflexivity.
Defined.

Lemma mouseMove_returns_witness :
  fst (onMouseMove (K := Toy.canvas) 5%Z (Toy.toyState idle [mkIndex 0 3])) = Ok tt.
Proof.
  apply (mouseMove_returns (K := Toy.canvas)).
  - apply reachable_new.
  - repeat split; intros; discriminate.
Defined.

Lemma click_on_split_point_witness :
  exists rest,
    effects (snd (onMouseUp (K := Toy.canvas) 3%Z true
                    (snd (onMouseDown (K := Toy.canvas) 3%Z false
                            (Toy.toyState idle [mkIndex 0 3])))))
    = [] ++ [Dispatch (TogglePointSelection (L := Toy.lib) tt 0 3 true)] ++ rest
    /\ dispatched rest = [].
Proof.
  exact (proj2 (click_on_split_point (K := Toy.canvas)
                  (Toy.toyState idle [mkIndex 0 3]) 3%Z false true
                  (mkCommandInfo (L := Toy.lib) 0 3 true)
                  eq_refl eq_refl eq_refl eq_refl eq_refl)).
Defined.

Lemma drag_starts_beyond_slop_witness :
  isDragTriggered
    (snd (onMouseMove (K := Toy.canvas) 40%Z
            (snd (onMouseDown (K := Toy.canvas) 3%Z false
                    (Toy.toyState idle [mkIndex 0 3]))))) = true.
Proof.
  apply (drag_starts_beyond_slop (K := Toy.canvas)
           (Toy.toyState idle [mkIndex 0 3]) 3%Z 40%Z false
           (mkCommandInfo (L := Toy.lib) 0 3 true)
           eq_refl eq_refl eq_refl eq_refl).
Defined.

Lemma drag_and_drop_witness :
  exists rest,
    effects
      (snd (onMouseUp (K := Toy.canvas) 40%Z false
              (snd (onMouseMove (K := Toy.canvas) 40%Z
                      (snd (onMouseDown (K := Toy.canvas) 3%Z false
                              (Toy.toyState idle [mkIndex 0 3])))))))
    = [] ++ [Draw; SetHover None; Dispatch (SetSelections []);
             Dispatch (UpdateActivePathBlock (L := Toy.lib) tt [mkIndex 0 40])] ++ rest
    /\ dispatched rest = [].
Proof.
  refine (drag_and_drop (K := Toy.canvas)
            (Toy.toyState idle [mkIndex 0 3]) 3%Z 40%Z 40%Z false false
            (mkCommandInfo (L := Toy.lib) 0 3 true)
            (mkProjectionOntoPath 0 40 (inject_Z 40))
            eq_refl eq_refl eq_refl eq_refl eq_refl eq_refl _).
  cbn. discriminate.
Defined.

End SelectionFacts.

(** * Properties of the timeline component *)
Module TimelineFacts.

Import Timeline.

Open Scope Q_scope.

(** C7. The slider binding normalizes linearly:
    [onAnimationFractionSliderChanged] emits one value, the slider value
    divided by [maxAnimationFractionSliderValue] (1000), so that the
    emitted fraction times 1000 is the slider value and slider values in
    [0, 1000] give fractions in [0, 1]; [onLabelPointsCheckboxChanged]
    emits the boolean it receives. *)
Theorem C7_slider_normalized (sliderValue : Q) (shouldLabelPoints : bool) :
  (exists fraction,
      onAnimationFractionSliderChanged sliderValue
        = [animationFractionChangedEmitter fraction]
      /\ fraction = sliderValue / maxAnimationFractionSliderValue
      /\ maxAnimationFractionSliderValue = 1000
      /\ fraction * 1000 == sliderValue
      /\ (0 <= sliderValue <= 1000 -> 0 <= fraction <= 1))
  /\ onLabelPointsCheckboxChanged shouldLabelPoints
       = [labelPointsChangedEmitter shouldLabelPoints].
Proof.
  split; [| reflexivity].
  exists (sliderValue / maxAnimationFractionSliderValue).
  repeat split; unfold maxAnimationFractionSliderValue.
  - field.
  - apply Qle_shift_div_l; [reflexivity | lra].
  - apply Qle_shift_div_r; [reflexivity | lra].
Qed.

(** C7 at the middle of the slider. *)
Lemma C7_witness :
  exists fraction,
    onAnimationFractionSliderChanged 500
      = [animationFractionChangedEmitter fraction]
    /\ 0 <= fraction <= 1.
Proof.
  destruct (C7_slider_normalized 500 true)
    as ((fraction & Hemit & _ & _ & _ & Hrange) & _).
  exists fraction. split; [exact Hemit |].
  apply Hrange. split; discriminate.
Defined.

(** Once no frame is requested the remaining frames run nothing. *)
Lemma frames_after_the_end (timestamps : list Q) (p : Play) :
  frameRequested p = false -> fold_left frame timestamps p = p.
Proof.
  intros Hp. induction timestamps as [|timestamp rest IH]; [reflexivity |].
  cbn [fold_left]. unfold frame at 2. rewrite Hp. exact IH.
Qed.

(** With a start timestamp that is not 0 the loop goes as described. *)
Lemma frames_as_described (first : Q) (timestamps : list Q) (sofar : list Q) :
  ~ first == 0 ->
  fold_left frame timestamps (mkPlay (Some first) true sofar)
  = let (fractions, goesOn) := describedFractions first timestamps in
    mkPlay (if goesOn then Some first else None) goesOn (sofar ++ fractions).
Proof.
  intros Hfirst. revert sofar.
  induction timestamps as [|timestamp rest IH]; intros sofar.
  - cbn. rewrite app_nil_r. reflexivity.
  - cbn [fold_left describedFractions].
    unfold frame at 2. cbn [frameRequested]. unfold onAnimationFrame.
    cbn [startTimestamp emitted isFalsy].
    destruct (Qeq_bool first 0) eqn:Hzero;
      [apply Qeq_bool_iff in Hzero; contradiction |].
    unfold animationDuration.
    destruct (Qle_bool 1000 (timestamp - first)); cbn [negb].
    + apply frames_after_the_end. reflexivity.
    + rewrite IH. destruct (describedFractions first rest) as [fractions goesOn].
      rewrite <- app_assoc. reflexivity.
Qed.

(** X24. The play loop on frames whose first timestamp is not 0, in any
    order: the fractions emitted and the end of the loop are the described
    ones (elapsed / 1000 while the time elapsed since the first frame is
    below 1000 ms, then 1 and no further frame). *)
Lemma play_as_described (first : Q) (rest : list Q) :
  ~ first == 0 ->
  emitted (play (first :: rest)) = fst (describedPlay (first :: rest))
  /\ frameRequested (play (first :: rest)) = snd (describedPlay (first :: rest)).
Proof.
  intros Hfirst.
  assert (Hle : Qle_bool 1000 (first - first) = false).
  { destruct (Qle_bool 1000 (first - first)) eqn:Hle; [| reflexivity].
    apply Qle_bool_iff in Hle. exfalso. revert Hle. apply Qlt_not_le.
    setoid_replace (first - first) with 0 by ring. reflexivity. }
  assert (Hframe : frame onPlayClick first
                   = mkPlay (Some first) true ([] ++ [(first - first) / 1000])).
  { cbv [frame onPlayClick onAnimationFrame frameRequested startTimestamp emitted
         isFalsy animationDuration].
    rewrite Hle. reflexivity. }
  unfold play, describedPlay. cbn [fold_left describedFractions].
  rewrite Hframe, Hle, frames_as_described by exact Hfirst. cbn [negb].
  destruct (describedFractions first rest) as [fractions goesOn].
  split; reflexivity.
Qed.

Lemma fraction_below_one (elapsed : Q) :
  Qle_bool 1000 elapsed = false -> elapsed / 1000 < 1.
Proof.
  intros Hlt.
  assert (Hbelow : elapsed < 1000).
  { apply Qnot_le_lt. intros Hle. apply Qle_bool_iff in Hle. congruence. }
  apply Qlt_shift_div_r; [reflexivity | lra].
Qed.

(** C4, at the frames 0, 500 and 1200 ms. The description asks for the
    fractions 0, 1/2 and 1 and for the loop to end at the third frame,
    1200 ms after the first one. The code takes the start timestamp 0 of
    the first frame for an unset one: the second frame starts the clock
    again, the fractions are 0, 0 and 7/10, and a fourth frame is
    requested. *)
Theorem C4_play_restarts_at_zero :
  Forall2 Qeq (emitted (play [0; 500; 1200])) [0; 0; 7 # 10]
  /\ frameRequested (play [0; 500; 1200]) = true
  /\ Forall2 Qeq (fst (describedPlay [0; 500; 1200])) [0; 1 # 2; 1]
  /\ snd (describedPlay [0; 500; 1200]) = false.
Proof.
  split; [| split; [| split]].
  - unfold play. cbn. repeat (constructor; try reflexivity).
  - reflexivity.
  - cbn. repeat (constructor; try reflexivity).
  - reflexivity.
Qed.

Lemma no_time_elapsed (timestamp : Q) : Qle_bool 1000 (timestamp - timestamp) = false.
Proof.
  destruct (Qle_bool 1000 (timestamp - timestamp)) eqn:Hle; [| reflexivity].
  apply Qle_bool_iff in Hle. exfalso. revert Hle. apply Qlt_not_le.
  setoid_replace (timestamp - timestamp) with 0 by ring. reflexivity.
Qed.

(** X25. When the first frame has the timestamp 0 and the second has not,
    the clock starts again at the second frame: the first frame emits the
    fraction 0, and from the second frame on the loop goes as described
    for a play whose first frame is the second one. *)
Theorem play_restarts_after_zero (first second : Q) (rest : list Q) :
  first == 0 ->
  ~ second == 0 ->
  emitted (play (first :: second :: rest))
  = (first - first) / 1000 :: fst (describedPlay (second :: rest))
  /\ frameRequested (play (first :: second :: rest))
     = snd (describedPlay (second :: rest)).
Proof.
  intros Hzero Hsecond.
  assert (Hframe1 : frame onPlayClick first
                    = mkPlay (Some first) true ([] ++ [(first - first) / 1000])).
  { cbv [frame onPlayClick onAnimationFrame frameRequested startTimestamp emitted
         isFalsy animationDuration].
    rewrite no_time_elapsed. reflexivity. }
  assert (Hframe2 :
    frame (mkPlay (Some first) true ([] ++ [(first - first) / 1000])) second
    = mkPlay (Some second) true
        (([] ++ [(first - first) / 1000]) ++ [(second - second) / 1000])).
  { cbv [frame onAnimationFrame frameRequested startTimestamp emitted
         isFalsy animationDuration].
    apply Qeq_bool_iff in Hzero. rewrite Hzero, no_time_elapsed. reflexivity. }
  unfold play, describedPlay. cbn [fold_left describedFractions].
  rewrite Hframe1, Hframe2, no_time_elapsed, frames_as_described by exact Hsecond.
  cbn [negb].
  destruct (describedFractions second rest) as [fractions goesOn].
  split; reflexivity.
Qed.

Lemma frame_keeps_playShape (p : Play) (timestamp : Q) :
  playShape p -> playShape (frame p timestamp).
Proof.
  intros (running & He & Hbelow & Hend). unfold frame.
  destruct (frameRequested p) eqn:Hreq; [| exists running; rewrite Hreq; auto].
  rewrite app_nil_r in He. unfold onAnimationFrame, animationDuration.
  match goal with
  | |- context [Qle_bool 1000 ?progress] =>
      destruct (Qle_bool 1000 progress) eqn:Hle; cbn [negb]
  end.
  - exists running. cbn. rewrite He. repeat split; auto.
  - eexists. cbn. rewrite He, app_nil_r. split; [reflexivity |].
    split; [| discriminate].
    apply Forall_app. split; [exact Hbelow |].
    constructor; [| constructor]. apply fraction_below_one. exact Hle.
Qed.

Lemma frames_keep_playShape (timestamps : list Q) (p : Play) :
  playShape p -> playShape (fold_left frame timestamps p).
Proof.
  revert p. induction timestamps as [|timestamp rest IH]; intros p Hp; [exact Hp |].
  cbn [fold_left]. apply IH. apply frame_keeps_playShape. exact Hp.
Qed.

Lemma frames_count (timestamps : list Q) (p : Play) :
  (length (emitted (fold_left frame timestamps p))
   <= length (emitted p) + length timestamps)%nat
  /\ (frameRequested (fold_left frame timestamps p) = true ->
      length (emitted (fold_left frame timestamps p))
      = (length (emitted p) + length timestamps)%nat).
Proof.
  revert p. induction timestamps as [|timestamp rest IH]; intros p.
  - cbn. split; [lia | intros _; lia].
  - cbn [fold_left length]. destruct (frameRequested p) eqn:Hreq.
    + assert (Hone : length (emitted (frame p timestamp)) = S (length (emitted p))).
      { unfold frame. rewrite Hreq. unfold onAnimationFrame.
        destruct (negb _); cbn; rewrite length_app; cbn; lia. }
      destruct (IH (frame p timestamp)) as [Hle Heq]. rewrite Hone in Hle, Heq.
      split; [lia | intros H; rewrite (Heq H); lia].
    + assert (Hsame : frame p timestamp = p) by (unfold frame; rewrite Hreq; reflexivity).
      rewrite Hsame, frames_after_the_end by exact Hreq.
      split; [lia | congruence].
Qed.

(** X26. The fractions of a play, for any timestamps whatever (in any
    order, a first timestamp 0 included). Every frame that runs emits one
    fraction, so that there are at most as many fractions as frames, and
    as many while a frame is still requested. The fractions are below 1
    but for the last one of a play that has ended, which is 1; and a play
    that has ended has its start timestamp unset. *)
Theorem play_fractions (timestamps : list Q) :
  let p := play timestamps in
  (exists running,
      emitted p = running ++ (if frameRequested p then [] else [1])
      /\ Forall (fun fraction => fraction < 1) running
      /\ (frameRequested p = false -> startTimestamp p = None))
  /\ (length (emitted p) <= length timestamps)%nat
  /\ (frameRequested p = true -> length (emitted p) = length timestamps).
Proof.
  intros p. subst p. unfold play. split.
  - apply frames_keep_playShape. exists [].
    split; [reflexivity | split; [constructor | discriminate]].
  - exact (frames_count timestamps onPlayClick).
Qed.

Lemma play_as_described_witness :
  emitted (play [10; 510; 1210]) = fst (describedPlay [10; 510; 1210])
  /\ frameRequested (play [10; 510; 1210]) = false.
Proof.
  destruct (@play_as_described 10 [510; 1210]) as (He & Hr).
  - discriminate.
  - split; [exact He | exact Hr].
Defined.

Lemma play_restarts_after_zero_witness :
  emitted (play [0; 500; 1200]) = (0 - 0) / 1000 :: fst (describedPlay [500; 1200])
  /\ frameRequested (play [0; 500; 1200]) = true.
Proof.
  destruct (@play_restarts_after_zero 0 500 [1200]) as (He & Hr).
  - reflexivity.
  - discriminate.
  - split; [exact He | exact Hr].
Defined.

Lemma play_fractions_witness :
  length (emitted (play [5; 500; 900])) = 3%nat.
Proof.
  apply (proj2 (proj2 (play_fractions [5; 500; 900]))). reflexivity.
Defined.

End TimelineFacts.
